(** * The toast store of svelte-sonner ([src/lib/state.ts])

    A shallow embedding of [createToastState] and of the module-level
    counter [toastsCounter], followed by the properties of the store that
    the specification states.

    JavaScript objects are finite maps from property names to values
    ([gmap string value]): the store builds every record with object
    spreads, and a spread is a left-biased union of such maps.  The two
    svelte stores ([toasts], [heights]) and the counter are the fields of an
    explicit [state] that every operation threads. *)

From stdpp Require Import gmap strings list fin_maps.

Open Scope string_scope.

(** ** JavaScript values *)

(** The values that flow through the store.  A number is [NaN] or one of
    the numbers that are [===] to themselves, of which the store only
    ever compares two and counts up from 0.  Functions and other objects
    (components, promises, responses, class instances) are opaque
    references: the store copies them, compares them by identity, reads
    properties of them and calls them, and what those reads and calls give
    is fixed by the runtime environment [Env] below. *)
Inductive value : Type :=
  | VUndef
  | VNull
  | VBool (b : bool)
  | VNum (n : Z)
  | VNaN
  | VStr (s : string)
  | VFun (f : nat)
  | VObj (r : nat)
  | VTypeError.

#[global] Instance value_eq_dec : EqDecision value.
Proof. solve_decision. Defined.

#[global] Instance value_inhabited : Inhabited value := populate VUndef.

(** A plain object: [{ k1: v1, ... }].  A property that is present with the
    value [undefined] is a key bound to [VUndef]. *)
Abbreviation obj := (gmap string value).

(** [o.k]: reading a property that is missing gives [undefined]. *)
Definition get (o : obj) (k : string) : value := default VUndef (o !! k).

(** [a === b] on the values above: [NaN] is not [===] to anything, itself
    included; any other value is [===] to itself and to nothing else. *)
Definition strict_eq (a b : value) : bool :=
  match a with
  | VNaN => false
  | _ => bool_decide (a = b)
  end.

(** [typeof v === 'number'], [typeof v === 'boolean'],
    [typeof v === 'function']. *)
Definition is_number (v : value) : bool :=
  match v with VNum _ | VNaN => true | _ => false end.

Definition is_boolean (v : value) : bool :=
  match v with VBool _ => true | _ => false end.

Definition is_function (v : value) : bool :=
  match v with VFun _ => true | _ => false end.

(** ToBoolean. *)
Definition truthy (v : value) : bool :=
  match v with
  | VUndef | VNull | VNaN => false
  | VBool b => b
  | VNum n => negb (n =? 0)%Z
  | VStr s => negb (String.eqb s "")
  | VFun _ | VObj _ | VTypeError => true
  end.

(** The result of running code that may throw. *)
Inductive result (A : Type) : Type :=
  | Ret (a : A)
  | Throw (e : value).
Arguments Ret {A} a.
Arguments Throw {A} e.

(** What the JavaScript runtime and the caller's own functions decide:
    - [call f arg]: the call [f(arg)] of a caller-supplied function
      ([arg] is [VUndef] for a call without arguments);
    - [prop v k]: the property read [v.k] on a function or object;
    - [length_positive v]: whether [v.length > 0] holds for a function or
      object;
    - [to_string v]: the text [${v}] of a template literal;
    - [instanceof_Promise v]: [v instanceof Promise];
    - [has_then v]: whether the function or object [v] is a promise, with
      the [then], [catch] and [finally] of one. *)
Record Env : Type := {
  call : nat → value → result value;
  prop : value → string → value;
  length_positive : value → bool;
  to_string : value → string;
  instanceof_Promise : value → bool;
  has_then : value → bool
}.

(** Whether [p.then(..)] can be called: not on a primitive value, and on
    a function or object when it is a promise. *)
Definition thenable (E : Env) (p : value) : bool :=
  match p with
  | VFun _ | VObj _ => has_then E p
  | _ => false
  end.

(** [v.k] for a value that is not a plain record of the store. *)
Definition get_prop (E : Env) (v : value) (k : string) : value :=
  match v with
  | VFun _ | VObj _ | VTypeError => prop E v k
  | _ => VUndef
  end.

(** [v?.length > 0]. *)
Definition length_gt_0 (E : Env) (v : value) : bool :=
  match v with
  | VStr s => bool_decide (0 < String.length s)
  | VFun _ | VObj _ | VTypeError => length_positive E v
  | _ => false
  end.

(** ** The store *)

(** [ToastT] and [HeightT] ([types.ts]) are plain objects; of their
    properties the store names [id], [title], [dismissable], [type],
    [updated], [message], [promise], [component] and [toastId]. *)
Abbreviation ToastT := (gmap string value).
Abbreviation HeightT := (gmap string value).

(** One call of a caller-supplied function: the function and its argument. *)
Definition call_event : Type := nat * value.

(** [toasts] and [heights] are the contents of the two stores,
    [toastsCounter] the module-level counter.  [calls] is a ghost field: the
    calls of caller-supplied functions made so far, latest first. *)
Record state : Type := mkState {
  toasts : list ToastT;
  heights : list HeightT;
  toastsCounter : Z;
  calls : list call_event
}.

(** Modelled from the spec: [clientWritable] ([internal/helpers.js]) is not
    among the sources at hand; it is taken to be the observable container
    of the specification, whose [set] and [update] replace the value that
    [get] reads.  [toasts.set(ts)] is [set_toasts ts], and
    [toasts.update(f)] is [set_toasts (f (toasts st))]; likewise for
    [heights]. *)
Definition set_toasts (ts : list ToastT) (st : state) : state :=
  mkState ts (heights st) (toastsCounter st) (calls st).

Definition set_heights (hs : list HeightT) (st : state) : state :=
  mkState (toasts st) hs (toastsCounter st) (calls st).

(** [toastsCounter++]: the old value, and the state with the counter
    advanced. *)
Definition next_counter (st : state) : value * state :=
  (VNum (toastsCounter st),
   mkState (toasts st) (heights st) (toastsCounter st + 1) (calls st)).

(** Notes the call [f(arg)] in the ghost field. *)
Definition record_call (f : nat) (arg : value) (st : state) : state :=
  mkState (toasts st) (heights st) (toastsCounter st) ((f, arg) :: calls st).

(** The state when the module is loaded. *)
Definition initial : state := mkState [] [] 0 [].

(** [data.dismissable === undefined ? true : data.dismissable] *)
Definition dismissable_of (data : obj) : value :=
  if strict_eq (get data "dismissable") VUndef then VBool true
  else get data "dismissable".

(** [data.type === undefined ? 'default' : data.type] *)
Definition type_of (data : obj) : value :=
  if strict_eq (get data "type") VUndef then VStr "default"
  else get data "type".

Section Store.
Context (E : Env).

(** [toasts.update((prev) => [data, ...prev])] *)
Definition addToast (data : ToastT) (st : state) : state :=
  set_toasts (data :: toasts st) st.

(** The test that decides whether [create] keeps [data.id]:
    [typeof data?.id === 'number' || (data.id && data.id?.length > 0)]. *)
Definition id_given (data : obj) : bool :=
  is_number (get data "id")
  || (truthy (get data "id") && length_gt_0 E (get data "id")).

(** The record that replaces a toast with the id of the call. *)
Definition merge_toast (data : obj) (id message dismissable type : value)
    (toast : ToastT) : ToastT :=
  <["updated" := VBool true]>
    (<["type" := type]>
      (<["dismissable" := dismissable]>
        (<["title" := message]>
          (<["id" := id]> (data ∪ toast))))).

(** [const id = ... ? data.id : toastsCounter++] *)
Definition assign_id (data : obj) (st : state) : value * state :=
  if id_given data then (get data "id", st) else next_counter st.

Definition create (data : obj) (st : state) : value * state :=
  let message := get data "message" in
  let rest := delete "message" data in
  let '(id, st) := assign_id data st in
  let dismissable := dismissable_of data in
  let type := type_of data in
  let alreadyExists :=
    find (λ toast, strict_eq (get toast "id") id) (toasts st) in
  match alreadyExists with
  | Some _ =>
      (id,
       set_toasts
         (map (λ toast,
                 if strict_eq (get toast "id") id
                 then merge_toast data id message dismissable type toast
                 else <["updated" := VBool false]> toast)
              (toasts st))
         st)
  | None =>
      (id,
       addToast
         (<["type" := type]>
           (<["dismissable" := dismissable]>
             (<["title" := message]> (<["id" := id]> rest))))
         st)
  end.

(** [dismiss(id)]; [dismiss()] is [dismiss VUndef]. *)
Definition dismiss (id : value) (st : state) : value * state :=
  if strict_eq id VUndef then (VUndef, set_toasts [] st)
  else
    (id,
     set_toasts
       (filter (λ toast, negb (strict_eq (get toast "id") id)) (toasts st))
       st).

(** [{ ...data }] for an optional argument: spreading [undefined] copies
    nothing. *)
Definition spread (data : option obj) : obj := default ∅ data.

(** The typed wrappers: [create({ ...data, type: kind, message })]. *)
Definition create_typed (kind : string) (message : value)
    (data : option obj) (st : state) : value * state :=
  create (<["message" := message]> (<["type" := VStr kind]> (spread data))) st.

Definition message := create_typed "default".
Definition error := create_typed "error".
Definition success := create_typed "success".
Definition info := create_typed "info".
Definition warning := create_typed "warning".
Definition loading := create_typed "loading".

(** [a || b], with [b] evaluated only when [a] is falsy. *)
Definition or_else (a : value) (b : state → value * state) (st : state)
    : value * state :=
  if truthy a then (a, st) else b st.

Definition custom (component : value) (data : option obj) (st : state)
    : value * state :=
  let '(id, st) := or_else (get (spread data) "id") next_counter st in
  let '(_, st) :=
    create (spread data ∪ <["id" := id]> (<["component" := component]> ∅)) st in
  (id, st).

Definition removeHeight (id : value) (st : state) : state :=
  set_heights
    (filter (λ height, negb (strict_eq (get height "toastId") id)) (heights st))
    st.

Definition setHeight (data : HeightT) (st : state) : state :=
  let exists_ :=
    find (λ el, strict_eq (get el "toastId") (get data "toastId")) (heights st) in
  match exists_ with
  | None => set_heights (data :: heights st) st
  | Some _ =>
      set_heights
        (map (λ el,
                if strict_eq (get el "toastId") (get data "toastId")
                then data else el)
             (heights st))
        st
  end.

Definition reset (st : state) : state := set_heights [] (set_toasts [] st).

(** [toast(message, data)]: [create({ message, ...data })]. *)
Definition toastFunction (message : value) (data : option obj) (st : state)
    : value * state :=
  create (spread data ∪ <["message" := message]> ∅) st.

(** *** [promise] *)

(** [f(arg)] for a value [f]: calling what is not a function throws a
    [TypeError]. *)
Definition call_value (f arg : value) (st : state) : result value * state :=
  match f with
  | VFun n => (call E n arg, record_call n arg st)
  | _ => (Throw VTypeError, st)
  end.

(** The variables of one [promise] call that its three callbacks share:
    the [data] argument and the locals [id] and [shouldDismiss]. *)
Record closure : Type := mkClosure {
  c_data : obj;
  c_id : value;
  c_shouldDismiss : bool
}.

Definition clear_shouldDismiss (c : closure) : closure :=
  mkClosure (c_data c) (c_id c) false.

(** [typeof h === 'function' ? h(arg) : h] *)
Definition handler_message (h arg : value) (st : state)
    : result value * state :=
  if is_function h then call_value h arg st else (Ret h, st).

(** [create({ id, type: kind, message })] *)
Definition transition (id : value) (kind : string) (message : value)
    (st : state) : state :=
  snd (create
         (<["message" := message]>
            (<["type" := VStr kind]> (<["id" := id]> ∅))) st).

(** [response && typeof response.ok === 'boolean' && !response.ok] *)
Definition failed_response (response : value) : bool :=
  truthy response
  && is_boolean (get_prop E response "ok")
  && negb (truthy (get_prop E response "ok")).

(** The body of [promise] up to [return id].  A call without [data]
    returns at once; otherwise the result carries the closure of the
    callbacks registered on [p].  When [promise] is not a [Promise] it is
    called, and [p.then(..)] throws a [TypeError] when what it returned is
    no promise. *)
Definition promise (promise : value) (data : option obj) (st : state)
    : result (value * option closure) * state :=
  match data with
  | None => (Ret (VUndef, None), st)
  | Some data =>
      let '(id, st) :=
        if negb (strict_eq (get data "loading") VUndef)
        then create (<["message" := get data "loading"]>
                       (<["type" := VStr "loading"]>
                          (<["promise" := promise]> data))) st
        else (VUndef, st) in
      let '(p, st) :=
        if instanceof_Promise E promise then (Ret promise, st)
        else call_value promise VUndef st in
      match p with
      | Throw e => (Throw e, st)
      | Ret p =>
          if instanceof_Promise E p || thenable E p
          then (Ret (id, Some (mkClosure data id (negb (strict_eq id VUndef)))),
                st)
          else (Throw VTypeError, st)
      end
  end.

(** The callback given to [then]. *)
Definition on_fulfilled (c : closure) (response : value) (st : state)
    : result unit * closure * state :=
  if failed_response response then
    let c := clear_shouldDismiss c in
    match handler_message (get (c_data c) "error")
            (VStr ("HTTP error! status: "
                     ++ to_string E (get_prop E response "status"))) st with
    | (Ret message, st) => (Ret (), c, transition (c_id c) "error" message st)
    | (Throw e, st) => (Throw e, c, st)
    end
  else if negb (strict_eq (get (c_data c) "success") VUndef) then
    let c := clear_shouldDismiss c in
    match handler_message (get (c_data c) "success") response st with
    | (Ret message, st) => (Ret (), c, transition (c_id c) "success" message st)
    | (Throw e, st) => (Throw e, c, st)
    end
  else (Ret (), c, st).

(** The callback given to [catch]. *)
Definition on_rejected (c : closure) (error : value) (st : state)
    : result unit * closure * state :=
  if negb (strict_eq (get (c_data c) "error") VUndef) then
    let c := clear_shouldDismiss c in
    match handler_message (get (c_data c) "error") error st with
    | (Ret message, st) => (Ret (), c, transition (c_id c) "error" message st)
    | (Throw e, st) => (Throw e, c, st)
    end
  else (Ret (), c, st).

(** [data.finally?.()] *)
Definition call_finally (c : closure) (st : state) : result unit * state :=
  match get (c_data c) "finally" with
  | VUndef | VNull => (Ret (), st)
  | f =>
      match call_value f VUndef st with
      | (Ret _, st) => (Ret (), st)
      | (Throw e, st) => (Throw e, st)
      end
  end.

(** The callback given to [finally]. *)
Definition on_finally (c : closure) (st : state)
    : result unit * closure * state :=
  let '(c, st) :=
    if c_shouldDismiss c
    then (mkClosure (c_data c) VUndef (c_shouldDismiss c),
          snd (dismiss (c_id c) st))
    else (c, st) in
  let '(r, st) := call_finally c st in
  (r, c, st).

(** How the tracked promise [p] settles. *)
Inductive settlement : Type :=
  | Fulfilled (response : value)
  | Rejected (error : value).

(** [p.then(..)]: a rejection of [p] passes through. *)
Definition then_step (c : closure) (s : settlement) (st : state)
    : result unit * closure * state :=
  match s with
  | Fulfilled response => on_fulfilled c response st
  | Rejected error => (Throw error, c, st)
  end.

(** [.catch(..)]: runs on a rejection of [p] and on what the [then]
    callback threw. *)
Definition catch_step (r : result unit) (c : closure) (st : state)
    : result unit * closure * state :=
  match r with
  | Ret _ => (Ret (), c, st)
  | Throw error => on_rejected c error st
  end.

(** [.finally(..)]: runs in both cases; the chain ends rejected when the
    callback throws, and as the [catch] step ended otherwise. *)
Definition finally_step (r : result unit) (c : closure) (st : state)
    : result unit * closure * state :=
  match on_finally c st with
  | (Ret _, c, st) => (r, c, st)
  | (Throw e, c, st) => (Throw e, c, st)
  end.

(** [p.then(..).catch(..)] *)
Definition then_catch (c : closure) (s : settlement) (st : state)
    : result unit * closure * state :=
  let '(r, c, st) := then_step c s st in
  catch_step r c st.

(** The whole chain [p.then(..).catch(..).finally(..)], run on the state
    the store is in when [p] settles. *)
Definition settle (c : closure) (s : settlement) (st : state)
    : result unit * closure * state :=
  let '(r, c, st) := then_catch c s st in
  finally_step r c st.

End Store.

(** ** Reading the registries *)

(** The ids of the notifications, in registry order. *)
Definition ids (ts : list ToastT) : list value :=
  map (λ toast, get toast "id") ts.

(** The toastIds of the height records, in registry order. *)
Definition toastIds (hs : list HeightT) : list value :=
  map (λ height, get height "toastId") hs.

(** No id occurs twice among the notifications and no toastId twice among
    the height records. *)
Definition unique_ids (st : state) : Prop :=
  NoDup (ids (toasts st)) ∧ NoDup (toastIds (heights st)).

(** Whether the lookup [l.find((o) => o[key] === id)] of the code finds a
    record. *)
Definition found (key : string) (id : value) (l : list obj) : bool :=
  existsb (λ o, strict_eq (get o key) id) l.

(** Each key other than [NaN] occurs at most once in the list. *)
Definition known_once (ks : list value) : Prop :=
  NoDup (filter (λ k, k ≠ VNaN) ks).

(** What the store keeps: at most one record per id and per toastId that
    is not [NaN]. *)
Definition one_record_per_id (st : state) : Prop :=
  known_once (ids (toasts st)) ∧ known_once (toastIds (heights st)).

(** The properties of a record that [create] computes itself when it
    updates a record; every other property comes from the call or from the
    record. *)
Definition computed_fields : list string :=
  ["id"; "title"; "dismissable"; "type"; "updated"].

(** The record a [create] call writes over a record with its id. *)
Definition merged (data : obj) (id : value) (toast : ToastT) : ToastT :=
  merge_toast data id (get data "message") (dismissable_of data)
    (type_of data) toast.

(** The record a [create] call prepends when its id is new. *)
Definition fresh_toast (data : obj) (id : value) : ToastT :=
  <["type" := type_of data]>
    (<["dismissable" := dismissable_of data]>
      (<["title" := get data "message"]>
        (<["id" := id]> (delete "message" data)))).

(** The three properties that an update takes from the call alone. *)
Definition computed_from_call (data : obj) (toast' : ToastT) : Prop :=
  get toast' "title" = get data "message" ∧
  get toast' "dismissable" = dismissable_of data ∧
  get toast' "type" = type_of data ∧
  (get data "message" = VUndef → get toast' "title" = VUndef) ∧
  (get data "dismissable" = VUndef → get toast' "dismissable" = VBool true) ∧
  (get data "type" = VUndef → get toast' "type" = VStr "default").

(** What an update looks like from outside: [before] and [after] are the
    registry around a [create] call with argument [data] that resolved to
    [id].  The registry keeps its length and the order of its ids; a record
    with the id [id] is marked as updated and holds the properties of the
    call over its own; any other record is marked as not updated and is
    otherwise as it was. *)
Definition updated_by_id (id : value) (data : obj)
    (before after : list ToastT) : Prop :=
  length after = length before ∧
  ids after = ids before ∧
  ∀ j toast, before !! j = Some toast →
    ∃ toast', after !! j = Some toast' ∧
      if decide (get toast "id" = id) then
        get toast' "id" = id ∧
        get toast' "updated" = VBool true ∧
        (∀ k v, k ∉ computed_fields → data !! k = Some v →
                toast' !! k = Some v) ∧
        (∀ k, k ∉ computed_fields → data !! k = None →
              toast' !! k = toast !! k)
      else toast' = <["updated" := VBool false]> toast.

(** Exactly one record of the registry is marked as updated, and it is a
    record with the id [id]. *)
Definition exactly_one_updated (id : value) (after : list ToastT) : Prop :=
  ∃ i, ∀ j toast, after !! j = Some toast →
    (j = i → get toast "id" = id ∧ get toast "updated" = VBool true) ∧
    (j ≠ i → get toast "id" ≠ id ∧ get toast "updated" = VBool false).

(** ** Sequences of operations *)

(** The typed wrappers of the store. *)
Inductive wrapper : Type :=
  | WMessage | WError | WSuccess | WInfo | WWarning | WLoading.

Definition call_wrapper (E : Env) (w : wrapper)
    : value → option obj → state → value * state :=
  match w with
  | WMessage => message E
  | WError => error E
  | WSuccess => success E
  | WInfo => info E
  | WWarning => warning E
  | WLoading => loading E
  end.

(** One call of a method of the store by its user. *)
Inductive op : Type :=
  | OpCreate (data : obj)
  | OpDismiss (id : value)
  | OpWrapper (w : wrapper) (message : value) (data : option obj)
  | OpCustom (component : value) (data : option obj)
  | OpSetHeight (data : HeightT)
  | OpRemoveHeight (id : value)
  | OpReset.

Definition run_op (E : Env) (st : state) (o : op) : state :=
  match o with
  | OpCreate data => snd (create E data st)
  | OpDismiss id => snd (dismiss id st)
  | OpWrapper w message data => snd (call_wrapper E w message data st)
  | OpCustom component data => snd (custom E component data st)
  | OpSetHeight data => setHeight data st
  | OpRemoveHeight id => removeHeight id st
  | OpReset => reset st
  end.

(** The calls of [ops], first to last, from the state [st]. *)
Definition run (E : Env) (ops : list op) (st : state) : state :=
  foldl (run_op E) st ops.

(** [promise(p, data)] followed at once by the settlement [s] of [p]: the
    id the call returned, how the callback chain ended, and the state after
    it. *)
Definition promise_settled (E : Env) (p : value) (data : option obj)
    (s : settlement) (st : state) : option (value * result unit * state) :=
  match promise E p data st with
  | (Ret (id, Some c), st) =>
      let '(r, _, st) := settle E c s st in Some (id, r, st)
  | _ => None
  end.

(** The id, kind and title of every notification, in registry order. *)
Definition summary (st : state) : list (value * value * value) :=
  map (λ toast, (get toast "id", get toast "type", get toast "title"))
    (toasts st).




(** ** A concrete environment and concrete calls

    Used to run the definitions on examples.  Function [0] returns the
    text "done" whatever it is given, function [1] throws its argument and
    function [2] returns a promise; object [0] is a promise, object [1] a
    response with [ok === false] and status 500, object [2] a response
    with [ok === true], object [3] a component. *)
Definition sample_env : Env := {|
  call := λ f arg,
    match f with
    | 0 => Ret (VStr "done")
    | 1 => Throw arg
    | _ => Ret (VObj 0)
    end;
  prop := λ v k,
    match v with
    | VObj 1 =>
        if String.eqb k "ok" then VBool false
        else if String.eqb k "status" then VNum 500 else VUndef
    | VObj 2 =>
        if String.eqb k "ok" then VBool true
        else if String.eqb k "status" then VNum 200 else VUndef
    | _ => VUndef
    end;
  length_positive := λ _, false;
  to_string := λ v,
    match v with
    | VNum 500 => "500"
    | VNum 200 => "200"
    | VStr s => s
    | _ => "undefined"
    end;
  instanceof_Promise := λ v, match v with VObj 0 => true | _ => false end;
  has_then := λ v, match v with VObj 0 => true | _ => false end
|}.

(** The registry after [create({ message: 'hi' })] on a fresh store. *)
Definition one_toast : state :=
  snd (create sample_env (<["message" := VStr "hi"]> ∅) initial).

(** The argument of [create({ id: 0, message: 'bye' })]. *)
Definition bye_data : obj := <["message" := VStr "bye"]> (<["id" := VNum 0]> ∅).

(** The argument of [create({ id: 0 })]. *)
Definition only_id_data : obj := <["id" := VNum 0]> ∅.

(** The argument of
    [create({ id: 0, message: 'oops', type: 'error', dismissable: false })]
    and the registry after that call on a fresh store. *)
Definition oops_data : obj :=
  <["dismissable" := VBool false]>
    (<["type" := VStr "error"]>
      (<["message" := VStr "oops"]> (<["id" := VNum 0]> ∅))).

Definition oops_toast : state := snd (create sample_env oops_data initial).

(** A height registry with records for the toasts 1 and 0. *)
Definition height_of (toastId height : Z) : HeightT :=
  <["height" := VNum height]> (<["toastId" := VNum toastId]> ∅).

Definition two_heights : state :=
  setHeight (height_of 1 40) (setHeight (height_of 0 30) initial).

(** Arguments of [promise]: [{ loading: 'L' }],
    [{ loading: 'L', error: 'E' }], [{ loading: 'L', success: 'S' }] and
    [{ loading: 'L', finally: f0 }]. *)
Definition loading_data : obj := <["loading" := VStr "L"]> ∅.

Definition loading_error_data : obj :=
  <["error" := VStr "E"]> (<["loading" := VStr "L"]> ∅).

Definition loading_success_data : obj :=
  <["success" := VStr "S"]> (<["loading" := VStr "L"]> ∅).

Definition loading_finally_data : obj :=
  <["finally" := VFun 0]> (<["loading" := VStr "L"]> ∅).

(** The store after [promise(p, data)] on a fresh store, [p] being the
    promise object 0. *)
Definition after_promise (data : obj) : state :=
  snd (promise sample_env (VObj 0) (Some data) initial).

(** The registry after three [create] calls on a fresh store: ids 2, "a"
    and 0, latest first. *)
Definition three_toasts : state :=
  snd (create sample_env (<["message" := VStr "third"]> (<["id" := VNum 2]> ∅))
    (snd (create sample_env (<["message" := VStr "second"]> (<["id" := VStr "a"]> ∅))
      one_toast))).

(** ** Further readings of the code *)

(** The id test of [create] on the id itself:
    [typeof id === 'number' || (id && id?.length > 0)]. *)
Definition usable_id (E : Env) (id : value) : bool :=
  is_number id || (truthy id && length_gt_0 E id).

(** The kind that a typed wrapper fixes. *)
Definition wrapper_kind (w : wrapper) : string :=
  match w with
  | WMessage => "default"
  | WError => "error"
  | WSuccess => "success"
  | WInfo => "info"
  | WWarning => "warning"
  | WLoading => "loading"
  end.

(** The properties of a new record that [create] sets or drops itself. *)
Definition fresh_fields : list string :=
  ["id"; "title"; "dismissable"; "type"; "message"].

(** What a [create] call with a new id leaves: the record [toast] in front
    of the registry [before], which is otherwise as it was. *)
Definition prepended (id : value) (data : obj) (toast : ToastT)
    (before after : list ToastT) : Prop :=
  after = toast :: before ∧
  get toast "id" = id ∧
  get toast "title" = get data "message" ∧
  get toast "dismissable" = dismissable_of data ∧
  get toast "type" = type_of data ∧
  toast !! "message" = None ∧
  ∀ k, k ∉ fresh_fields → toast !! k = data !! k.

(** The argument of [create({ id: NaN })]. *)
Definition nan_data : obj := <["id" := VNaN]> ∅.

(** A height record whose toastId is [NaN]. *)
Definition nan_height : HeightT :=
  <["height" := VNum 10]> (<["toastId" := VNaN]> ∅).


(** The argument of [create({ message: 'hi' })]. *)
Definition hi_data : obj := <["message" := VStr "hi"]> ∅.

(** Every id of the registry passes the id test of [create]. *)
Definition usable_ids (E : Env) (st : state) : Prop :=
  Forall (λ id, usable_id E id = true) (ids (toasts st)).

(** The argument of [create({ id: 'a', message: 'second' })], the calls
    that build the registry with the ids 2, "a" and 0, and the record "a"
    of that registry. *)
Definition second_data : obj :=
  <["message" := VStr "second"]> (<["id" := VStr "a"]> ∅).

Definition three_ops : list op :=
  [OpCreate hi_data; OpCreate second_data;
   OpCreate (<["message" := VStr "third"]> (<["id" := VNum 2]> ∅))].

Definition second_toast : ToastT := fresh_toast second_data (VStr "a").

(** The argument of the [create] call that [promise(p, data)] makes for
    its loading notification. *)
Definition loading_call (p : value) (data : obj) : obj :=
  <["message" := get data "loading"]>
    (<["type" := VStr "loading"]> (<["promise" := p]> data)).

(** The first step of [promise(p, data)]: the id of the loading
    notification, if [data.loading] asks for one, and the state then. *)
Definition loading_step (E : Env) (p : value) (data : obj) (st : state)
    : value * state :=
  if negb (strict_eq (get data "loading") VUndef)
  then create E (loading_call p data) st
  else (VUndef, st).

(** The argument [{ loading: 'L', success: f1 }] of [promise], [f1] being
    the function of [sample_env] that throws. *)
Definition loading_throwing_success_data : obj :=
  <["success" := VFun 1]> (<["loading" := VStr "L"]> ∅).

(** The argument [{ loading: 'L' }] of [promise] with a function that
    throws as the promise-producing function, a fresh store. *)
Definition after_throwing_thunk : result (value * option closure) * state :=
  promise sample_env (VFun 1) (Some loading_data) initial.

(** The argument [{ id: 'c1', description: 'd' }] of [custom]. *)
Definition custom_data : obj :=
  <["description" := VStr "d"]> (<["id" := VStr "c1"]> ∅).

(** The argument [{ loading: 'L', error: f0 }] of [promise], [f0] being
    the function of [sample_env] that returns "done". *)
Definition loading_error_function_data : obj :=
  <["error" := VFun 0]> (<["loading" := VStr "L"]> ∅).


(** ** Properties of objects and lists *)

Lemma strict_eq_true (a b : value) :
  strict_eq a b = true ↔ a = b ∧ a ≠ VNaN.
Proof.
  unfold strict_eq.
  destruct a;
    try (rewrite bool_decide_eq_true;
         split; [intros <-; by split|by intros [? _]]).
  split; [done|]. by intros [_ ?].
Qed.

Lemma strict_eq_eq (a b : value) : strict_eq a b = true → a = b.
Proof. intros H. by apply strict_eq_true in H as [? _]. Qed.

Lemma strict_eq_refl (a : value) : a ≠ VNaN → strict_eq a a = true.
Proof. intros H. by apply strict_eq_true. Qed.

Lemma strict_eq_ne (a b : value) : a ≠ b → strict_eq a b = false.
Proof.
  intros H. destruct (strict_eq a b) eqn:Heq; [|done].
  by apply strict_eq_eq in Heq.
Qed.

Lemma strict_eq_nan_r (a : value) : strict_eq a VNaN = false.
Proof. by destruct a. Qed.

Lemma strict_eq_false (a b : value) :
  strict_eq a b = false ↔ a ≠ b ∨ a = VNaN.
Proof.
  split.
  - intros H. destruct (decide (a = VNaN)); [by right|]. left. intros ->.
    by rewrite strict_eq_refl in H.
  - intros [H| ->]; [by apply strict_eq_ne|done].
Qed.

(** For a value that is not [NaN], [===] is equality. *)
Lemma strict_eq_decide (a b : value) :
  b ≠ VNaN → strict_eq a b = bool_decide (a = b).
Proof.
  intros Hb. unfold strict_eq. destruct a; try done.
  symmetry. apply bool_decide_eq_false. congruence.
Qed.

(** [v === undefined] *)
Lemma strict_eq_undef_false (a : value) :
  strict_eq a VUndef = false ↔ a ≠ VUndef.
Proof. rewrite strict_eq_decide by done. apply bool_decide_eq_false. Qed.

Lemma strict_eq_undef_true (a : value) :
  strict_eq a VUndef = true ↔ a = VUndef.
Proof. rewrite strict_eq_decide by done. apply bool_decide_eq_true. Qed.

Lemma get_insert_eq (o : obj) (k : string) (v : value) :
  get (<[k := v]> o) k = v.
Proof. unfold get. by rewrite lookup_insert_eq. Qed.

Lemma get_insert_ne (o : obj) (k k' : string) (v : value) :
  k ≠ k' → get (<[k := v]> o) k' = get o k'.
Proof. intros Hne. unfold get. by rewrite lookup_insert_ne. Qed.

Lemma get_absent (o : obj) (k : string) : o !! k = None → get o k = VUndef.
Proof. intros H. unfold get. by rewrite H. Qed.

(** Rewrites a read of a property through the inserts of an object
    literal. *)
Ltac get_insert :=
  repeat first
    [ rewrite get_insert_eq
    | rewrite get_insert_ne by (intros ?; discriminate) ].

(** [find] reports a record exactly when [found] says so. *)
Lemma find_id_is_Some (key : string) (id : value) (l : list obj) :
  is_Some (find (λ o, strict_eq (get o key) id) l) ↔ found key id l = true.
Proof.
  unfold found. induction l as [|o l IH]; simpl.
  - split; [by intros [? ?]|done].
  - destruct (strict_eq (get o key) id); simpl; [|done].
    split; [done|eauto].
Qed.

Lemma find_id_None (key : string) (id : value) (l : list obj) :
  find (λ o, strict_eq (get o key) id) l = None ↔ found key id l = false.
Proof.
  rewrite eq_None_not_Some, find_id_is_Some. by destruct (found key id l).
Qed.

(** A record is found for a key exactly when the key is not [NaN] and is
    one of the keys of the list. *)
Lemma found_elem_of (key : string) (id : value) (l : list obj) :
  found key id l = true ↔ id ≠ VNaN ∧ id ∈ map (λ o, get o key) l.
Proof.
  unfold found. rewrite existsb_exists, list_elem_of_In, in_map_iff. split.
  - intros (o & Hin & Heq). apply strict_eq_true in Heq as [Heq Hnan].
    split; [congruence|eauto].
  - intros (Hnan & o & Heq & Hin). exists o. split; [done|].
    apply strict_eq_true. split; congruence.
Qed.

Lemma not_found_elem_of (key : string) (id : value) (l : list obj) :
  found key id l = false ↔ id = VNaN ∨ id ∉ map (λ o, get o key) l.
Proof.
  destruct (found key id l) eqn:Hf.
  - apply found_elem_of in Hf as [Hnan Hin]. split; [done|]. tauto.
  - split; [|done]. intros _.
    destruct (decide (id = VNaN)) as [|Hnan]; [by left|]. right.
    intros Hin. assert (found key id l = true) as Ht by by apply found_elem_of.
    congruence.
Qed.

Lemma found_member (key : string) (id : value) (l : list obj) :
  found key id l = true → ∃ o, o ∈ l ∧ strict_eq (get o key) id = true.
Proof.
  unfold found. rewrite existsb_exists. intros (o & Hin & Heq).
  exists o. by rewrite list_elem_of_In.
Qed.

Lemma not_found_member (key : string) (id : value) (l : list obj) (o : obj) :
  found key id l = false → o ∈ l → strict_eq (get o key) id = false.
Proof.
  intros Hf Hin. destruct (strict_eq (get o key) id) eqn:Heq; [|done].
  assert (found key id l = true) as Ht.
  { unfold found. apply existsb_exists. exists o.
    by rewrite <- list_elem_of_In. }
  congruence.
Qed.

(** ** [create] *)

Section CreateFacts.
Context (E : Env).
Implicit Types (data : obj) (st : state) (id : value).

Lemma assign_id_toasts data st :
  toasts (snd (assign_id E data st)) = toasts st.
Proof. unfold assign_id. by destruct (id_given E data). Qed.

Lemma assign_id_heights data st :
  heights (snd (assign_id E data st)) = heights st.
Proof. unfold assign_id. by destruct (id_given E data). Qed.

Lemma assign_id_calls data st :
  calls (snd (assign_id E data st)) = calls st.
Proof. unfold assign_id. by destruct (id_given E data). Qed.

(** The id a [create] call resolves to is never [undefined]. *)
Lemma assign_id_defined data st : fst (assign_id E data st) ≠ VUndef.
Proof.
  unfold assign_id.
  destruct (id_given E data) eqn:Hgiven; simpl; [|done].
  intros Hid. unfold id_given in Hgiven. by rewrite Hid in Hgiven.
Qed.

(** The update branch. *)
Lemma create_existing data st :
  found "id" (fst (assign_id E data st)) (toasts st) = true →
  create E data st =
    (fst (assign_id E data st),
     set_toasts
       (map (λ toast,
               if strict_eq (get toast "id") (fst (assign_id E data st))
               then merged data (fst (assign_id E data st)) toast
               else <["updated" := VBool false]> toast)
            (toasts st))
       (snd (assign_id E data st))).
Proof.
  intros Hin. unfold create.
  pose proof (assign_id_toasts data st) as Hts.
  destruct (assign_id E data st) as [id st1]. simpl in *.
  apply find_id_is_Some in Hin as [x Hx]. by rewrite Hts, Hx.
Qed.

(** The prepend branch. *)
Lemma create_new data st :
  found "id" (fst (assign_id E data st)) (toasts st) = false →
  create E data st =
    (fst (assign_id E data st),
     addToast (fresh_toast data (fst (assign_id E data st)))
       (snd (assign_id E data st))).
Proof.
  intros Hin. unfold create.
  pose proof (assign_id_toasts data st) as Hts.
  destruct (assign_id E data st) as [id st1]. simpl in *.
  apply find_id_None in Hin. by rewrite Hts, Hin.
Qed.

Lemma create_returns_assigned data st :
  fst (create E data st) = fst (assign_id E data st).
Proof.
  destruct (found "id" (fst (assign_id E data st)) (toasts st)) eqn:H.
  - by rewrite create_existing.
  - by rewrite create_new.
Qed.

Lemma create_heights data st :
  heights (snd (create E data st)) = heights st.
Proof.
  destruct (found "id" (fst (assign_id E data st)) (toasts st)) eqn:H.
  - rewrite create_existing by done. simpl. apply assign_id_heights.
  - rewrite create_new by done. simpl. apply assign_id_heights.
Qed.

Lemma create_calls data st : calls (snd (create E data st)) = calls st.
Proof.
  destruct (found "id" (fst (assign_id E data st)) (toasts st)) eqn:H.
  - rewrite create_existing by done. simpl. apply assign_id_calls.
  - rewrite create_new by done. simpl. apply assign_id_calls.
Qed.

Lemma merged_id data id toast : get (merged data id toast) "id" = id.
Proof. unfold merged, merge_toast. by get_insert. Qed.

Lemma merged_updated data id toast :
  get (merged data id toast) "updated" = VBool true.
Proof. unfold merged, merge_toast. by get_insert. Qed.

Lemma merged_title data id toast :
  get (merged data id toast) "title" = get data "message".
Proof. unfold merged, merge_toast. by get_insert. Qed.

Lemma merged_dismissable data id toast :
  get (merged data id toast) "dismissable" = dismissable_of data.
Proof. unfold merged, merge_toast. by get_insert. Qed.

Lemma merged_type data id toast :
  get (merged data id toast) "type" = type_of data.
Proof. unfold merged, merge_toast. by get_insert. Qed.

(** Outside the computed properties the merged record is the spread
    [{ ...toast, ...data }]. *)
Lemma merged_lookup data id toast k :
  k ∉ computed_fields →
  merged data id toast !! k = (data ∪ toast) !! k.
Proof.
  intros Hk. unfold merged, merge_toast, computed_fields in *.
  rewrite !lookup_insert_ne; [done|..]; intros <-; apply Hk; set_solver.
Qed.

(** The update keeps every id where it is. *)
Lemma update_keeps_ids data id (ts : list ToastT) :
  ids (map (λ toast,
              if strict_eq (get toast "id") id then merged data id toast
              else <["updated" := VBool false]> toast) ts)
  = ids ts.
Proof.
  unfold ids. rewrite map_map. apply map_ext. intros toast.
  destruct (strict_eq _ _) eqn:Heq.
  - apply strict_eq_eq in Heq. by rewrite merged_id.
  - by get_insert.
Qed.

End CreateFacts.

Lemma map_is_fmap {A B} (f : A → B) (l : list A) : map f l = f <$> l.
Proof. induction l as [|a l IH]; [done|]. simpl. by rewrite IH. Qed.

Lemma map_lookup {A B} (f : A → B) (l : list A) (i : nat) :
  map f l !! i = f <$> l !! i.
Proof. rewrite map_is_fmap. apply list_lookup_fmap. Qed.

(** *** Keys that occur once *)

Lemma known_once_cons (k : value) (ks : list value) :
  known_once (k :: ks) ↔ (k ≠ VNaN → k ∉ ks) ∧ known_once ks.
Proof.
  unfold known_once. rewrite filter_cons.
  destruct (decide (k ≠ VNaN)) as [Hk|Hk].
  - rewrite NoDup_cons, list_elem_of_filter. tauto.
  - tauto.
Qed.

Lemma known_once_nil : known_once [].
Proof. unfold known_once. constructor. Qed.

(** A list without repetition has every key once. *)
Lemma NoDup_known_once (ks : list value) : NoDup ks → known_once ks.
Proof. apply NoDup_filter. Qed.

(** Two positions with the same key, not [NaN], are one position. *)
Lemma known_once_lookup (ks : list value) (i j : nat) (k : value) :
  known_once ks → k ≠ VNaN →
  ks !! i = Some k → ks !! j = Some k → i = j.
Proof.
  revert i j. induction ks as [|x ks IH]; intros i j Hks Hk Hi Hj; [done|].
  apply known_once_cons in Hks as [Hx Hks].
  destruct i as [|i], j as [|j]; simpl in *.
  - done.
  - simplify_eq. exfalso. apply (Hx Hk). by eapply list_elem_of_lookup_2.
  - simplify_eq. exfalso. apply (Hx Hk). by eapply list_elem_of_lookup_2.
  - f_equal. by apply IH.
Qed.

(** C1. A [create] call whose id is found in the registry returns that id
    and keeps the length of the registry and the order of its ids; it
    writes the properties of the call over those of the record with that
    id and marks it [updated: true], and marks every other record
    [updated: false] without touching its other properties.  In a registry
    with one record per id, exactly one record ends up marked as
    updated. *)
Theorem create_existing_updates_exactly_one (E : Env) (data : obj) (st : state) :
  found "id" (fst (assign_id E data st)) (toasts st) = true →
  fst (create E data st) = fst (assign_id E data st) ∧
  updated_by_id (fst (assign_id E data st)) data
    (toasts st) (toasts (snd (create E data st))) ∧
  (known_once (ids (toasts st)) →
   exactly_one_updated (fst (assign_id E data st))
     (toasts (snd (create E data st)))).
Proof.
  intros Hfound. split; [apply create_returns_assigned|].
  rewrite create_existing by done. simpl.
  set (id := fst (assign_id E data st)) in *.
  apply found_elem_of in Hfound as [Hnan Hin].
  fold (ids (toasts st)) in Hin.
  split; [unfold updated_by_id; split_and!|].
  - by rewrite length_map.
  - apply update_keeps_ids.
  - intros j toast Htoast. rewrite map_lookup, Htoast. simpl.
    eexists. split; [done|]. rewrite strict_eq_decide by done.
    case_bool_decide; case_decide; try done. split_and!.
    + apply merged_id.
    + apply merged_updated.
    + intros k v Hk Hv. rewrite merged_lookup by done.
      by apply lookup_union_Some_l.
    + intros k Hk Hv. rewrite merged_lookup by done.
      by apply lookup_union_r.
  - intros Honce. apply list_elem_of_lookup in Hin as [i Hi].
    exists i. intros j toast'. rewrite map_lookup.
    destruct (toasts st !! j) as [toast|] eqn:Htoast; [|done]. simpl.
    intros Heq. injection Heq as <-.
    assert (ids (toasts st) !! j = Some (get toast "id")) as Hj.
    { unfold ids. by rewrite map_lookup, Htoast. }
    rewrite strict_eq_decide by done. split.
    + intros ->. rewrite Hi in Hj. injection Hj as Hid.
      rewrite bool_decide_eq_true_2 by done.
      by rewrite merged_id, merged_updated.
    + intros Hne.
      assert (get toast "id" ≠ id) as Hid.
      { intros Hid. apply Hne. rewrite Hid in Hj.
        by apply (known_once_lookup _ j i id Honce). }
      rewrite bool_decide_eq_false_2 by done.
      by get_insert.
Qed.

(** The call [create({ id: 0, message: 'bye' })] after
    [create({ message: 'hi' })] updates the only record. *)
Lemma create_existing_updates_exactly_one_witness :
  fst (create sample_env bye_data one_toast)
    = fst (assign_id sample_env bye_data one_toast) ∧
  updated_by_id (fst (assign_id sample_env bye_data one_toast)) bye_data
    (toasts one_toast) (toasts (snd (create sample_env bye_data one_toast))) ∧
  exactly_one_updated (fst (assign_id sample_env bye_data one_toast))
    (toasts (snd (create sample_env bye_data one_toast))).
Proof.
  destruct (create_existing_updates_exactly_one sample_env bye_data one_toast)
    as (Hid & Hupdated & Hone).
  - vm_compute. reflexivity.
  - split_and!; [exact Hid|exact Hupdated|]. apply Hone.
    apply NoDup_known_once. vm_compute. repeat constructor. inversion 1.
Defined.

(** C10. On a [create] call whose id is [===] to the id of a record, the
    properties [title], [dismissable] and [type] of that record are
    written from the call alone: the title is the call's [message]
    ([undefined] when the call has none), [dismissable] is [true] when the
    call has none, [type] is ['default'] when the call has none, whatever
    the record held before. *)
Theorem create_existing_overwrites_computed (E : Env) (data : obj) (st : state)
    (i : nat) (toast : ToastT) :
  toasts st !! i = Some toast →
  strict_eq (get toast "id") (fst (assign_id E data st)) = true →
  ∃ toast',
    toasts (snd (create E data st)) !! i = Some toast' ∧
    computed_from_call data toast'.
Proof.
  intros Htoast Hid.
  assert (found "id" (fst (assign_id E data st)) (toasts st) = true) as Hin.
  { unfold found. apply existsb_exists. exists toast. split; [|done].
    apply list_elem_of_In. by eapply list_elem_of_lookup_2. }
  rewrite create_existing by done. simpl.
  rewrite map_lookup, Htoast. simpl. rewrite Hid.
  eexists. split; [done|]. unfold computed_from_call.
  rewrite merged_title, merged_dismissable, merged_type.
  split_and!; try done.
  - intros H. unfold dismissable_of.
    by rewrite (proj2 (strict_eq_undef_true _) H).
  - intros H. unfold type_of. by rewrite (proj2 (strict_eq_undef_true _) H).
Qed.

(** [create({ id: 0 })] on a registry whose record 0 is an error toast
    that cannot be dismissed. *)
Lemma create_existing_overwrites_computed_witness :
  ∃ toast',
    toasts (snd (create sample_env only_id_data oops_toast)) !! 0%nat
      = Some toast' ∧
    computed_from_call only_id_data toast'.
Proof.
  apply (create_existing_overwrites_computed sample_env only_id_data
           oops_toast 0 (fresh_toast oops_data (VNum 0))).
  - vm_compute. reflexivity.
  - vm_compute. reflexivity.
Defined.

(** The record of that example goes from an error toast titled "oops" that
    cannot be dismissed to an untitled default toast that can. *)
Example create_only_id_resets :
  (λ toast, (get toast "title", get toast "dismissable", get toast "type"))
    <$> toasts oops_toast
    = [(VStr "oops", VBool false, VStr "error")] ∧
  (λ toast, (get toast "title", get toast "dismissable", get toast "type"))
    <$> toasts (snd (create sample_env only_id_data oops_toast))
    = [(VUndef, VBool true, VStr "default")].
Proof. split; vm_compute; reflexivity. Qed.

(** The scenario [create({ message: 'hi' })] then
    [create({ id: returnedId, message: 'bye' })]: one record, titled "bye",
    marked as updated. *)
Example create_hi_then_bye :
  fst (create sample_env (<["message" := VStr "hi"]> ∅) initial) = VNum 0 ∧
  (λ toast, (get toast "id", get toast "title", get toast "updated"))
    <$> toasts (snd (create sample_env bye_data one_toast))
    = [(VNum 0, VStr "bye", VBool true)].
Proof. split; vm_compute; reflexivity. Qed.

(** ** [dismiss] *)

(** The test of [dismiss] for a record to stay, as a proposition. *)
Lemma stays_iff (key : string) (id : value) (o : obj) :
  negb (strict_eq (get o key) id) ↔ strict_eq (get o key) id = false.
Proof. rewrite negb_True, Is_true_false. done. Qed.

Lemma filter_stays (key : string) (id : value) (l : list obj) :
  filter (λ o, negb (strict_eq (get o key) id)) l
  = filter (λ o, strict_eq (get o key) id = false) l.
Proof. apply list_filter_iff. intros o. apply stays_iff. Qed.

(** C5. [dismiss()] empties the notification registry and returns
    [undefined].  [dismiss(id)] returns [id] and leaves the registry
    without the records whose id is [===] to [id]: what remains are the
    other records, unchanged and in their order.  For an id other than
    [NaN] those are the records whose id is not [id]. *)
Theorem dismiss_removes_matching (id : value) (st : state) :
  (fst (dismiss VUndef st) = VUndef ∧ toasts (snd (dismiss VUndef st)) = []) ∧
  (id ≠ VUndef →
   fst (dismiss id st) = id ∧
   toasts (snd (dismiss id st))
     = filter (λ toast, strict_eq (get toast "id") id = false) (toasts st) ∧
   toasts (snd (dismiss id st)) `sublist_of` toasts st ∧
   (∀ toast, toast ∈ toasts (snd (dismiss id st))
             ↔ toast ∈ toasts st ∧ strict_eq (get toast "id") id = false) ∧
   (id ≠ VNaN →
    toasts (snd (dismiss id st))
      = filter (λ toast, get toast "id" ≠ id) (toasts st) ∧
    ∀ toast, toast ∈ toasts (snd (dismiss id st))
             ↔ toast ∈ toasts st ∧ get toast "id" ≠ id)).
Proof.
  split; [done|]. intros Hid. unfold dismiss.
  apply strict_eq_undef_false in Hid. rewrite Hid. simpl.
  rewrite filter_stays.
  split_and!; [done|done|apply sublist_filter| |].
  - intros toast. rewrite list_elem_of_filter. tauto.
  - intros Hnan.
    assert (filter (λ toast, strict_eq (get toast "id") id = false) (toasts st)
            = filter (λ toast, get toast "id" ≠ id) (toasts st)) as ->.
    { apply list_filter_iff. intros toast.
      rewrite strict_eq_decide by done. apply bool_decide_eq_false. }
    split; [done|]. intros toast. rewrite list_elem_of_filter. tauto.
Qed.

(** [dismiss('a')] on the registry with ids 2, "a" and 0 leaves 2 and 0. *)
Lemma dismiss_removes_matching_witness :
  fst (dismiss (VStr "a") three_toasts) = VStr "a" ∧
  toasts (snd (dismiss (VStr "a") three_toasts))
    = filter (λ toast, strict_eq (get toast "id") (VStr "a") = false)
        (toasts three_toasts) ∧
  toasts (snd (dismiss (VStr "a") three_toasts))
    `sublist_of` toasts three_toasts ∧
  (∀ toast, toast ∈ toasts (snd (dismiss (VStr "a") three_toasts))
            ↔ toast ∈ toasts three_toasts
              ∧ strict_eq (get toast "id") (VStr "a") = false) ∧
  (VStr "a" ≠ VNaN →
   toasts (snd (dismiss (VStr "a") three_toasts))
     = filter (λ toast, get toast "id" ≠ VStr "a") (toasts three_toasts) ∧
   ∀ toast, toast ∈ toasts (snd (dismiss (VStr "a") three_toasts))
            ↔ toast ∈ toasts three_toasts ∧ get toast "id" ≠ VStr "a").
Proof.
  apply (proj2 (dismiss_removes_matching (VStr "a") three_toasts)).
  discriminate.
Defined.

Example dismiss_a_of_three :
  ids (toasts three_toasts) = [VNum 2; VStr "a"; VNum 0] ∧
  ids (toasts (snd (dismiss (VStr "a") three_toasts))) = [VNum 2; VNum 0].
Proof. split; vm_compute; reflexivity. Qed.

(** ** The height registry *)

Lemma setHeight_new (data : HeightT) (st : state) :
  found "toastId" (get data "toastId") (heights st) = false →
  heights (setHeight data st) = data :: heights st.
Proof.
  intros Hnew. unfold setHeight. apply find_id_None in Hnew. by rewrite Hnew.
Qed.

Lemma setHeight_known (data : HeightT) (st : state) :
  found "toastId" (get data "toastId") (heights st) = true →
  heights (setHeight data st)
    = map (λ el, if strict_eq (get el "toastId") (get data "toastId")
                 then data else el) (heights st).
Proof.
  intros Hold. unfold setHeight. by apply find_id_is_Some in Hold as [x ->].
Qed.

Lemma setHeight_known_toastIds (data : HeightT) (st : state) :
  found "toastId" (get data "toastId") (heights st) = true →
  toastIds (heights (setHeight data st)) = toastIds (heights st).
Proof.
  intros Hold. rewrite setHeight_known by done. unfold toastIds.
  rewrite map_map. apply map_ext. intros el.
  destruct (strict_eq _ _) eqn:Heq; [|done].
  by apply strict_eq_eq in Heq.
Qed.

Lemma setHeight_toasts (data : HeightT) (st : state) :
  toasts (setHeight data st) = toasts st.
Proof. unfold setHeight. by destruct (find _ _). Qed.

(** C8. [setHeight] with a toastId that is not found among the height
    records puts the record in front of the others.  With a toastId that
    is found, the registry keeps its length and the order of its
    toastIds, the records with that toastId become the given record and
    the others stay as they are. *)
Theorem setHeight_prepends_or_replaces (data : HeightT) (st : state) :
  (found "toastId" (get data "toastId") (heights st) = false →
   heights (setHeight data st) = data :: heights st) ∧
  (found "toastId" (get data "toastId") (heights st) = true →
   length (heights (setHeight data st)) = length (heights st) ∧
   toastIds (heights (setHeight data st)) = toastIds (heights st) ∧
   ∀ i el, heights st !! i = Some el →
     heights (setHeight data st) !! i
       = Some (if decide (get el "toastId" = get data "toastId")
               then data else el)).
Proof.
  split.
  - apply setHeight_new.
  - intros Hold. split_and!.
    + by rewrite setHeight_known, length_map.
    + by apply setHeight_known_toastIds.
    + intros i el Hel. rewrite setHeight_known by done.
      apply found_elem_of in Hold as [Hnan _].
      rewrite map_lookup, Hel. simpl. rewrite strict_eq_decide by done.
      case_bool_decide; case_decide; done.
Qed.

(** A new toastId goes in front; a known one is replaced where it is. *)
Lemma setHeight_prepends_or_replaces_witness :
  heights (setHeight (height_of 2 50) two_heights)
    = height_of 2 50 :: heights two_heights ∧
  (length (heights (setHeight (height_of 0 99) two_heights))
     = length (heights two_heights) ∧
   toastIds (heights (setHeight (height_of 0 99) two_heights))
     = toastIds (heights two_heights) ∧
   ∀ i el, heights two_heights !! i = Some el →
     heights (setHeight (height_of 0 99) two_heights) !! i
       = Some (if decide (get el "toastId" = get (height_of 0 99) "toastId")
               then height_of 0 99 else el)).
Proof.
  split.
  - apply (proj1 (setHeight_prepends_or_replaces (height_of 2 50) two_heights)).
    vm_compute. reflexivity.
  - apply (proj2 (setHeight_prepends_or_replaces (height_of 0 99) two_heights)).
    vm_compute. reflexivity.
Defined.

Example setHeight_replaces_in_place :
  heights (setHeight (height_of 0 99) two_heights)
    = [height_of 1 40; height_of 0 99].
Proof. vm_compute. reflexivity. Qed.

(** ** The invariant: one record per id *)

Section Invariant.
Context (E : Env).

(** Filtering a list keeps its keys apart. *)
Lemma known_once_keys_filter (key : string) (P : obj → Prop)
    `{!∀ o, Decision (P o)} (l : list obj) :
  known_once (map (λ o, get o key) l) →
  known_once (map (λ o, get o key) (filter P l)).
Proof.
  induction l as [|o l IH]; [done|]. simpl.
  rewrite known_once_cons. intros [Hnotin Honce].
  rewrite filter_cons. destruct (decide (P o)); [|by apply IH].
  simpl. apply known_once_cons. split; [|by apply IH].
  intros Hnan Hin. apply (Hnotin Hnan).
  rewrite !map_is_fmap in *.
  apply list_elem_of_fmap in Hin as (o' & Heq & Ho').
  apply list_elem_of_fmap. exists o'. split; [done|].
  by apply list_elem_of_filter in Ho' as [_ ?].
Qed.

Lemma fresh_toast_id (data : obj) (id : value) :
  get (fresh_toast data id) "id" = id.
Proof. unfold fresh_toast. by get_insert. Qed.

Lemma create_preserves (data : obj) (st : state) :
  one_record_per_id st → one_record_per_id (snd (create E data st)).
Proof.
  intros [Hts Hhs]. split; [|by rewrite create_heights].
  destruct (found "id" (fst (assign_id E data st)) (toasts st)) eqn:H.
  - rewrite create_existing by done. simpl. by rewrite update_keeps_ids.
  - rewrite create_new by done. simpl. rewrite assign_id_toasts.
    rewrite fresh_toast_id. apply known_once_cons. split; [|done].
    intros Hnan. apply not_found_elem_of in H as [H|H]; done.
Qed.

Lemma dismiss_preserves (id : value) (st : state) :
  one_record_per_id st → one_record_per_id (snd (dismiss id st)).
Proof.
  intros [Hts Hhs]. unfold dismiss.
  destruct (strict_eq id VUndef); split; simpl; try done.
  - apply known_once_nil.
  - by apply known_once_keys_filter.
Qed.

Lemma custom_preserves (component : value) (data : option obj) (st : state) :
  one_record_per_id st → one_record_per_id (snd (custom E component data st)).
Proof.
  intros Hst. unfold custom, or_else.
  destruct (truthy _); simpl.
  - destruct (create _ _ _) as [id st'] eqn:Hc. simpl.
    change st' with (snd (id, st')). rewrite <- Hc. by apply create_preserves.
  - destruct (create _ _ _) as [id st'] eqn:Hc. simpl.
    change st' with (snd (id, st')). rewrite <- Hc. by apply create_preserves.
Qed.

Lemma setHeight_preserves (data : HeightT) (st : state) :
  one_record_per_id st → one_record_per_id (setHeight data st).
Proof.
  intros [Hts Hhs].
  destruct (found "toastId" (get data "toastId") (heights st)) eqn:H.
  - split; [by rewrite setHeight_toasts|].
    by rewrite setHeight_known_toastIds.
  - split; [by rewrite setHeight_toasts|].
    rewrite setHeight_new by done.
    unfold toastIds in *. simpl. apply known_once_cons. split; [|done].
    intros Hnan. apply not_found_elem_of in H as [H|H]; done.
Qed.

Lemma removeHeight_preserves (id : value) (st : state) :
  one_record_per_id st → one_record_per_id (removeHeight id st).
Proof.
  intros [Hts Hhs]. split; [done|]. simpl. by apply known_once_keys_filter.
Qed.

Lemma run_op_preserves (st : state) (o : op) :
  one_record_per_id st → one_record_per_id (run_op E st o).
Proof.
  intros Hst. destruct o as [data|id|w m data|c data|data|id|]; simpl.
  - by apply create_preserves.
  - by apply dismiss_preserves.
  - destruct w; by apply create_preserves.
  - by apply custom_preserves.
  - by apply setHeight_preserves.
  - by apply removeHeight_preserves.
  - split; apply known_once_nil.
Qed.

Lemma run_preserves (ops : list op) (st : state) :
  one_record_per_id st → one_record_per_id (run E ops st).
Proof.
  revert st. induction ops as [|o ops IH]; intros st Hst; [done|].
  simpl. apply IH. by apply run_op_preserves.
Qed.

End Invariant.

(** C2. After any number of calls of [create], [dismiss], the typed
    wrappers, [custom], [setHeight], [removeHeight] and [reset] on a
    freshly loaded store, and so at every point of any sequence of such
    calls, no two notifications have the same id and no two height records
    have the same toastId, as long as that id or toastId is not [NaN]. *)
Theorem one_record_per_id_at_any_point (E : Env) (ops : list op) (n : nat) :
  one_record_per_id (run E (take n ops) initial).
Proof. apply run_preserves. split; apply known_once_nil. Qed.

(** With [NaN] there is no such bound: [create({ id: NaN })] twice leaves
    two records whose id is [NaN], and [setHeight] with the toastId [NaN]
    twice leaves two height records, since [NaN] is never found. *)
Lemma unique_ids_fails_for_NaN :
  ids (toasts (run sample_env
                 (take 2 [OpCreate nan_data; OpCreate nan_data]) initial))
    = [VNaN; VNaN] ∧
  ¬ unique_ids (run sample_env
                  (take 2 [OpCreate nan_data; OpCreate nan_data]) initial).
Proof.
  split; [vm_compute; reflexivity|].
  intros [Hids _].
  vm_compute in Hids. apply NoDup_cons in Hids as [Hnotin _].
  apply Hnotin. left.
Qed.

Example setHeight_NaN_twice :
  toastIds (heights (run sample_env
                       [OpSetHeight (<["toastId" := VNaN]> ∅);
                        OpSetHeight (<["toastId" := VNaN]> ∅)] initial))
    = [VNaN; VNaN].
Proof. vm_compute. reflexivity. Qed.

Section CustomFacts.
Context (E : Env).
Implicit Types (data : obj) (st : state) (component : value).

(** In [{ component, id, ...data }] an [id] property of [data] wins. *)
Lemma custom_spread_id data component (id v : value) :
  data !! "id" = Some v →
  data ∪ <["id" := id]> (<["component" := component]> ∅)
  = data ∪ <["component" := component]> ∅.
Proof.
  intros Hv. apply map_eq. intros k.
  destruct (decide (k = "id")) as [->|Hk].
  - by rewrite !(lookup_union_Some_l _ _ _ _ Hv).
  - destruct (data !! k) as [w|] eqn:Hw.
    + by rewrite !(lookup_union_Some_l _ _ _ _ Hw).
    + rewrite !lookup_union_r by done. by rewrite lookup_insert_ne.
Qed.

Lemma get_present data k (v : value) : get data k = v → v ≠ VUndef →
  data !! k = Some v.
Proof.
  unfold get. destruct (data !! k); simpl; intros; by subst.
Qed.

(** A caller's id that is truthy is what [custom] returns, and the
    registry is the one [create({ component, ...data })] gives. *)
Lemma custom_truthy_id data component st :
  truthy (get data "id") = true →
  custom E component (Some data) st
  = (get data "id",
     snd (create E (data ∪ <["component" := component]> ∅) st)).
Proof.
  intros Ht. unfold custom, or_else. simpl. rewrite Ht.
  rewrite (custom_spread_id _ _ _ (get data "id")).
  - by destruct (create _ _ _).
  - apply get_present; [done|]. intros Hu. by rewrite Hu in Ht.
Qed.

(** Without an id, [custom] draws the counter once and the record gets
    that id. *)
Lemma custom_without_id data component st :
  data !! "id" = None →
  fst (custom E component (Some data) st) = VNum (toastsCounter st) ∧
  toastsCounter (snd (custom E component (Some data) st))
    = (toastsCounter st + 1)%Z ∧
  fst (create E
         (data ∪ <["id" := VNum (toastsCounter st)]>
                   (<["component" := component]> ∅))
         (snd (next_counter st)))
    = VNum (toastsCounter st).
Proof.
  intros Hnone. unfold custom, or_else. simpl.
  rewrite (get_absent _ _ Hnone). simpl.
  assert (get (data ∪ <["id" := VNum (toastsCounter st)]>
                        (<["component" := component]> ∅)) "id"
          = VNum (toastsCounter st)) as Hid.
  { unfold get. rewrite lookup_union_r by done. by rewrite lookup_insert_eq. }
  assert (∀ st0, assign_id E
            (data ∪ <["id" := VNum (toastsCounter st)]>
                      (<["component" := component]> ∅)) st0
          = (VNum (toastsCounter st), st0)) as Hassign.
  { intros st0. unfold assign_id, id_given. by rewrite Hid. }
  split_and!.
  - by destruct (create _ _ _).
  - destruct (create _ _ _) as [id st'] eqn:Hc. simpl.
    change st' with (snd (id, st')). rewrite <- Hc.
    destruct (found "id" (VNum (toastsCounter st))
                (toasts (snd (next_counter st)))) eqn:H.
    + rewrite create_existing; rewrite Hassign; done.
    + rewrite create_new; rewrite Hassign; done.
  - by rewrite create_returns_assigned, Hassign.
Qed.

(** With the id [0], [custom] draws the counter and returns what it
    drew, while the record is created or updated under the id 0. *)
Lemma custom_zero_id data component st :
  get data "id" = VNum 0 →
  custom E component (Some data) st
  = (VNum (toastsCounter st),
     snd (create E (data ∪ <["component" := component]> ∅)
            (snd (next_counter st)))) ∧
  fst (create E (data ∪ <["component" := component]> ∅)
         (snd (next_counter st))) = VNum 0.
Proof.
  intros Hid. assert (data !! "id" = Some (VNum 0)) as Hlook.
  { by apply get_present. }
  split.
  - unfold custom, or_else. simpl. rewrite Hid. simpl.
    rewrite (custom_spread_id _ _ _ (VNum 0)) by done.
    by destruct (create _ _ _).
  - rewrite create_returns_assigned. unfold assign_id, id_given, get.
    by rewrite !(lookup_union_Some_l _ _ _ _ Hlook).
Qed.

End CustomFacts.

(** C9. [custom(component, { id: 0 })] on a store whose counter stands at 1
    and whose only record has the id 0: the call draws the counter, which
    goes to 2, and returns 1, while the record it writes is the record 0;
    [create] with the same argument returns 0 and leaves the counter
    alone. *)
Theorem custom_zero_id_returns_counter :
  toastsCounter one_toast = 1%Z ∧
  fst (custom sample_env (VObj 3) (Some only_id_data) one_toast) = VNum 1 ∧
  toastsCounter (snd (custom sample_env (VObj 3) (Some only_id_data) one_toast))
    = 2%Z ∧
  ids (toasts (snd (custom sample_env (VObj 3) (Some only_id_data) one_toast)))
    = [VNum 0] ∧
  fst (create sample_env (only_id_data ∪ <["component" := VObj 3]> ∅) one_toast)
    = VNum 0 ∧
  toastsCounter
    (snd (create sample_env (only_id_data ∪ <["component" := VObj 3]> ∅)
            one_toast)) = 1%Z.
Proof. split_and!; vm_compute; reflexivity. Qed.

(** With the empty string as id the counter is drawn twice: the record
    gets the second number and [custom] returns the first. *)
Example custom_empty_string_id :
  fst (custom sample_env (VObj 3) (Some (<["id" := VStr ""]> ∅)) one_toast)
    = VNum 1 ∧
  ids (toasts (snd (custom sample_env (VObj 3) (Some (<["id" := VStr ""]> ∅))
                      one_toast)))
    = [VNum 2; VNum 0].
Proof. split; vm_compute; reflexivity. Qed.

(** ** [promise] *)

Section PromiseFacts.
Context (E : Env).
Implicit Types (data : obj) (st : state) (c : closure) (s : settlement).


(** After [create], the registry has a record with the returned id, the
    call's message as title and the call's kind. *)
Lemma create_writes_record data st :
  ∃ toast,
    toast ∈ toasts (snd (create E data st)) ∧
    get toast "id" = fst (create E data st) ∧
    get toast "title" = get data "message" ∧
    get toast "type" = type_of data.
Proof.
  rewrite create_returns_assigned.
  destruct (found "id" (fst (assign_id E data st)) (toasts st)) eqn:H.
  - rewrite create_existing by done. simpl.
    apply found_member in H as (toast & Hin & Hid).
    exists (merged data (fst (assign_id E data st)) toast). split_and!.
    + rewrite map_is_fmap. apply list_elem_of_fmap. exists toast.
      split; [|done]. by rewrite Hid.
    + apply merged_id.
    + apply merged_title.
    + apply merged_type.
  - rewrite create_new by done. simpl.
    exists (fresh_toast data (fst (assign_id E data st))). split_and!.
    + by left.
    + unfold fresh_toast. by get_insert.
    + unfold fresh_toast. by get_insert.
    + unfold fresh_toast. by get_insert.
Qed.

Lemma handler_message_toasts (h arg : value) st :
  toasts (snd (handler_message E h arg st)) = toasts st.
Proof. unfold handler_message, call_value. by destruct h. Qed.












End PromiseFacts.

Section Settlement.
Context (E : Env).
Implicit Types (data : obj) (st : state) (c : closure) (s : settlement).



(** A failed response without an error handler: the [then] callback
    clears the flag and calls [create({ id, type: 'error', message })] with
    an [undefined] message. *)
Lemma on_fulfilled_failed_without_handler c (response : value) st :
  failed_response E response = true →
  get (c_data c) "error" = VUndef →
  on_fulfilled E c response st
  = (Ret (), clear_shouldDismiss c, transition E (c_id c) "error" VUndef st).
Proof.
  intros Hr He. unfold on_fulfilled, handler_message. rewrite Hr. simpl.
  by rewrite He.
Qed.




End Settlement.



(** The scenario [promise(p, { loading: 'L', error: 'E' })] where [p]
    rejects: the loading notification 0 becomes an error notification
    titled "E". *)
Example promise_loading_error_rejected :
  summary (after_promise loading_error_data)
    = [(VNum 0, VStr "loading", VStr "L")] ∧
  (λ '(id, r, st), (id, r, summary st))
    <$> promise_settled sample_env (VObj 0) (Some loading_error_data)
          (Rejected (VStr "boom")) initial
    = Some (VNum 0, Ret (), [(VNum 0, VStr "error", VStr "E")]).
Proof. split; vm_compute; reflexivity. Qed.

(** The scenario [promise(p, { loading: 'L', success: 'S' })] where [p]
    resolves to a response with [ok === true]: the loading notification 0
    becomes a success notification titled "S" and stays. *)
Example promise_loading_success_resolved :
  (λ '(id, r, st), (id, r, summary st))
    <$> promise_settled sample_env (VObj 0) (Some loading_success_data)
          (Fulfilled (VObj 2)) initial
    = Some (VNum 0, Ret (), [(VNum 0, VStr "success", VStr "S")]).
Proof. vm_compute. reflexivity. Qed.

(** *** Calls without handlers *)

(** Without [data], [promise] returns [undefined] at once: no notification,
    no call of a promise-producing function, no callbacks. *)
Lemma promise_without_data (E : Env) (p : value) (st : state) :
  promise E p None st = (Ret (VUndef, None), st).
Proof. done. Qed.


(** C3. [promise(p, { loading: 'L' })] on a fresh store, where [p] resolves
    to a response with [ok === false]: [data.error] is missing, nothing is
    thrown, and the loading notification 0 is turned into an error
    notification without a title, which the [finally] callback leaves in
    the registry. *)
Theorem failed_response_without_error_handler :
  get loading_data "error" = VUndef ∧
  promise sample_env (VObj 0) (Some loading_data) initial
    = (Ret (VNum 0, Some (mkClosure loading_data (VNum 0) true)),
       after_promise loading_data) ∧
  summary (after_promise loading_data) = [(VNum 0, VStr "loading", VStr "L")] ∧
  failed_response sample_env (VObj 1) = true ∧
  (λ '(r, c, st), (r, c_shouldDismiss c, summary st))
    (settle sample_env (mkClosure loading_data (VNum 0) true)
       (Fulfilled (VObj 1)) (after_promise loading_data))
    = (Ret (), false, [(VNum 0, VStr "error", VUndef)]).
Proof. split_and!; vm_compute; reflexivity. Qed.

(** C7. [promise(p)] returns [undefined] and leaves the fresh store as it
    is.  [promise(p, {})] returns [undefined] and creates nothing at the
    call; when [p] then resolves to a response with [ok === false], the
    callbacks create an error notification without a title. *)
Theorem promise_without_handlers_failed_response :
  promise sample_env (VObj 0) None initial = (Ret (VUndef, None), initial) ∧
  promise sample_env (VObj 0) (Some ∅) initial
    = (Ret (VUndef, Some (mkClosure ∅ VUndef false)), initial) ∧
  failed_response sample_env (VObj 1) = true ∧
  (λ '(r, c, st), (r, summary st))
    (settle sample_env (mkClosure ∅ VUndef false) (Fulfilled (VObj 1)) initial)
    = (Ret (), [(VNum 0, VStr "error", VUndef)]).
Proof. split_and!; vm_compute; reflexivity. Qed.

(** With any other outcome, [promise(p, {})] creates no notification. *)
Example promise_without_handlers_other_outcomes :
  (λ '(id, r, st), (id, r, summary st))
    <$> promise_settled sample_env (VObj 0) (Some ∅) (Fulfilled (VObj 2)) initial
    = Some (VUndef, Ret (), []) ∧
  (λ '(id, r, st), (id, r, summary st))
    <$> promise_settled sample_env (VObj 0) (Some ∅) (Rejected (VStr "boom"))
          initial
    = Some (VUndef, Ret (), []).
Proof. split; vm_compute; reflexivity. Qed.


(** ** More on [create] *)

Lemma id_given_usable (E : Env) (data : obj) :
  id_given E data = usable_id E (get data "id").
Proof. done. Qed.

(** The id that [create] resolves to passes the id test of [create]. *)
Lemma assign_id_usable (E : Env) (data : obj) (st : state) :
  usable_id E (fst (assign_id E data st)) = true.
Proof.
  unfold assign_id. rewrite id_given_usable.
  by destruct (usable_id E (get data "id")) eqn:Hu.
Qed.

(** An id that passes the test is the id that a call with it resolves
    to, and the counter stays where it is. *)
Lemma assign_id_of_usable (E : Env) (data : obj) (st : state) :
  usable_id E (get data "id") = true →
  assign_id E data st = (get data "id", st).
Proof. intros Hu. unfold assign_id. by rewrite id_given_usable, Hu. Qed.

(** X1. A [create] call whose id is not found in the registry (an id that
    no record has, or [NaN]) puts one record in front and leaves the
    others as they are, their [updated] marks included.  The new record
    has the resolved id, the call's message as [title], the defaulted
    [dismissable] and [type], no [message] property, and every other
    property as the call has it. *)
Theorem create_new_id_prepends (E : Env) (data : obj) (st : state) :
  found "id" (fst (assign_id E data st)) (toasts st) = false →
  fst (create E data st) = fst (assign_id E data st) ∧
  ∃ toast, prepended (fst (assign_id E data st)) data toast
             (toasts st) (toasts (snd (create E data st))).
Proof.
  intros Hnew. split; [apply create_returns_assigned|].
  rewrite create_new by done. simpl. rewrite assign_id_toasts.
  exists (fresh_toast data (fst (assign_id E data st))).
  unfold prepended, fresh_toast. split_and!; try done; try by get_insert.
  - rewrite !lookup_insert_ne by done. apply lookup_delete_eq.
  - intros k Hk. unfold fresh_fields in Hk.
    rewrite !lookup_insert_ne, lookup_delete_ne; [done|..];
      intros <-; apply Hk; set_solver.
Qed.

(** [create({ id: 'a', message: 'second' })] after
    [create({ message: 'hi' })]. *)
Lemma create_new_id_prepends_witness :
  fst (create sample_env (<["message" := VStr "second"]> (<["id" := VStr "a"]> ∅))
         one_toast)
    = fst (assign_id sample_env
             (<["message" := VStr "second"]> (<["id" := VStr "a"]> ∅)) one_toast) ∧
  ∃ toast,
    prepended
      (fst (assign_id sample_env
              (<["message" := VStr "second"]> (<["id" := VStr "a"]> ∅)) one_toast))
      (<["message" := VStr "second"]> (<["id" := VStr "a"]> ∅)) toast
      (toasts one_toast)
      (toasts (snd (create sample_env
                      (<["message" := VStr "second"]> (<["id" := VStr "a"]> ∅))
                      one_toast))).
Proof.
  apply (create_new_id_prepends sample_env
           (<["message" := VStr "second"]> (<["id" := VStr "a"]> ∅)) one_toast).
  vm_compute. reflexivity.
Defined.

(** [create({ id: NaN })] twice: each call puts a record in front. *)
Example create_NaN_twice :
  ids (toasts (snd (create sample_env nan_data
                      (snd (create sample_env nan_data one_toast)))))
    = [VNaN; VNaN; VNum 0].
Proof. vm_compute. reflexivity. Qed.

(** X2. The ids that [create] keeps are the numbers, zero, the negative
    ones and [NaN] included, and the strings that are not empty; then the
    counter is left alone.  For [undefined], [null], the empty string and
    the booleans the id is the counter, which goes up by one. *)
Theorem create_id_choice (E : Env) (data : obj) (st : state) :
  (∀ n, get data "id" = VNum n → assign_id E data st = (VNum n, st)) ∧
  (∀ s, get data "id" = VStr s → s ≠ "" → assign_id E data st = (VStr s, st)) ∧
  (get data "id" ∈ [VUndef; VNull; VStr ""; VBool true; VBool false] →
   fst (assign_id E data st) = VNum (toastsCounter st) ∧
   toastsCounter (snd (assign_id E data st)) = (toastsCounter st + 1)%Z ∧
   toasts (snd (assign_id E data st)) = toasts st) ∧
  (get data "id" = VNaN → assign_id E data st = (VNaN, st)).
Proof.
  unfold assign_id, id_given. split_and!.
  - intros n ->. done.
  - intros s -> Hs. simpl. destruct s as [|a s]; [done|]. done.
  - intros Hin.
    repeat (apply elem_of_cons in Hin as [->|Hin]; [done|]).
    by apply elem_of_nil in Hin.
  - intros ->. done.
Qed.

Lemma create_id_choice_witness :
  assign_id sample_env only_id_data one_toast = (VNum 0, one_toast) ∧
  assign_id sample_env (<["id" := VStr "a"]> ∅) one_toast = (VStr "a", one_toast) ∧
  (fst (assign_id sample_env (<["id" := VStr ""]> ∅) one_toast)
     = VNum (toastsCounter one_toast) ∧
   toastsCounter (snd (assign_id sample_env (<["id" := VStr ""]> ∅) one_toast))
     = (toastsCounter one_toast + 1)%Z ∧
   toasts (snd (assign_id sample_env (<["id" := VStr ""]> ∅) one_toast))
     = toasts one_toast) ∧
  assign_id sample_env nan_data one_toast = (VNaN, one_toast).
Proof.
  split; [|split; [|split]].
  - apply (proj1 (create_id_choice sample_env only_id_data one_toast) 0%Z).
    vm_compute. reflexivity.
  - apply (proj1 (proj2 (create_id_choice sample_env (<["id" := VStr "a"]> ∅)
                           one_toast)) "a").
    + vm_compute. reflexivity.
    + discriminate.
  - apply (proj1 (proj2 (proj2 (create_id_choice sample_env
                                  (<["id" := VStr ""]> ∅) one_toast)))).
    vm_compute. right. right. left.
  - apply (proj2 (proj2 (proj2 (create_id_choice sample_env nan_data
                                  one_toast)))).
    vm_compute. reflexivity.
Defined.

(** X3. A [create] call without an id of its own, made when the counter
    stands at a number that a record has as its id, adds no notification:
    it returns that number, updates that record and moves the counter
    on. *)
Theorem create_counter_collision (E : Env) (data : obj) (st : state) :
  id_given E data = false →
  VNum (toastsCounter st) ∈ ids (toasts st) →
  fst (create E data st) = VNum (toastsCounter st) ∧
  length (toasts (snd (create E data st))) = length (toasts st) ∧
  ids (toasts (snd (create E data st))) = ids (toasts st) ∧
  toastsCounter (snd (create E data st)) = (toastsCounter st + 1)%Z ∧
  ∃ toast, toast ∈ toasts (snd (create E data st)) ∧
           get toast "id" = VNum (toastsCounter st) ∧
           get toast "title" = get data "message" ∧
           get toast "updated" = VBool true.
Proof.
  intros Hgiven Hin.
  assert (assign_id E data st = next_counter st) as Hassign.
  { unfold assign_id. by rewrite Hgiven. }
  assert (found "id" (VNum (toastsCounter st)) (toasts st) = true) as Hfound.
  { by apply found_elem_of. }
  rewrite create_existing; rewrite Hassign; [|done]. simpl.
  split_and!; [done|by rewrite length_map|apply update_keeps_ids|done|].
  apply found_member in Hfound as (toast & Htoast & Hid).
  exists (merged data (VNum (toastsCounter st)) toast). split_and!.
  - rewrite map_is_fmap. apply list_elem_of_fmap. exists toast.
    split; [|done]. by rewrite Hid.
  - apply merged_id.
  - apply merged_title.
  - apply merged_updated.
Qed.

(** [create({ message: 'hi' })] after
    [create({ id: 0, message: 'oops', ... })] on a fresh store: the counter
    still stands at 0. *)
Lemma create_counter_collision_witness :
  fst (create sample_env hi_data oops_toast) = VNum (toastsCounter oops_toast) ∧
  length (toasts (snd (create sample_env hi_data oops_toast)))
    = length (toasts oops_toast) ∧
  ids (toasts (snd (create sample_env hi_data oops_toast)))
    = ids (toasts oops_toast) ∧
  toastsCounter (snd (create sample_env hi_data oops_toast))
    = (toastsCounter oops_toast + 1)%Z ∧
  ∃ toast, toast ∈ toasts (snd (create sample_env hi_data oops_toast)) ∧
           get toast "id" = VNum (toastsCounter oops_toast) ∧
           get toast "title" = get hi_data "message" ∧
           get toast "updated" = VBool true.
Proof.
  apply (create_counter_collision sample_env hi_data oops_toast).
  - vm_compute. reflexivity.
  - vm_compute. left.
Defined.


(** ** Filtering by key *)

Lemma filter_key_absent (key : string) (id : value) (l : list obj) :
  found key id l = false →
  filter (λ o, negb (strict_eq (get o key) id)) l = l.
Proof.
  unfold found. induction l as [|o l IH]; [done|]. simpl. intros Hnot.
  apply orb_false_iff in Hnot as [Ho Hnot].
  rewrite filter_cons_True.
  - by rewrite IH.
  - by apply stays_iff.
Qed.

Lemma filter_key_gone (key : string) (id : value) (l : list obj) :
  found key id (filter (λ o, negb (strict_eq (get o key) id)) l) = false.
Proof.
  destruct (found key id (filter _ l)) eqn:Hf; [|done].
  apply found_member in Hf as (o & Hin & Heq).
  apply list_elem_of_filter in Hin as [Hp _].
  apply stays_iff in Hp. congruence.
Qed.

Lemma filter_key_length (key : string) (id : value) (l : list obj) :
  known_once (map (λ o, get o key) l) →
  found key id l = true →
  length (filter (λ o, negb (strict_eq (get o key) id)) l) + 1 = length l.
Proof.
  unfold found. induction l as [|o l IH]; simpl; [done|].
  rewrite known_once_cons. intros [Hnotin Honce] Hin.
  destruct (strict_eq (get o key) id) eqn:Heq; simpl in *.
  - rewrite filter_cons_False.
    + rewrite filter_key_absent; [lia|].
      apply strict_eq_true in Heq as [<- Hnan].
      apply not_found_elem_of. right. by apply Hnotin.
    + rewrite stays_iff. congruence.
  - rewrite filter_cons_True by by apply stays_iff.
    simpl. rewrite <- (IH Honce Hin). lia.
Qed.

Lemma Forall_keys_filter (key : string) (P : value → Prop) (Q : obj → Prop)
    `{!∀ o, Decision (Q o)} (l : list obj) :
  Forall P (map (λ o, get o key) l) →
  Forall P (map (λ o, get o key) (filter Q l)).
Proof.
  induction l as [|o l IH]; [done|]. simpl. intros Hall.
  apply Forall_cons in Hall as [Ho Hall].
  rewrite filter_cons. destruct (decide (Q o)); [|by apply IH].
  simpl. apply Forall_cons. split; [done|by apply IH].
Qed.

(** ** The ids of the registry pass the id test *)

Section UsableIds.
Context (E : Env).

Lemma usable_id_defined (id : value) : usable_id E id = true → id ≠ VUndef.
Proof. by intros Hu ->. Qed.

Lemma create_usable (data : obj) (st : state) :
  usable_ids E st → usable_ids E (snd (create E data st)).
Proof.
  unfold usable_ids. intros Hst.
  destruct (found "id" (fst (assign_id E data st)) (toasts st)) eqn:H.
  - rewrite create_existing by done. simpl. by rewrite update_keeps_ids.
  - rewrite create_new by done. simpl. rewrite assign_id_toasts.
    rewrite fresh_toast_id. apply Forall_cons. split; [|done].
    apply assign_id_usable.
Qed.

Lemma dismiss_usable (id : value) (st : state) :
  usable_ids E st → usable_ids E (snd (dismiss id st)).
Proof.
  unfold usable_ids, dismiss. intros Hst.
  destruct (strict_eq id VUndef); simpl; [constructor|].
  by apply Forall_keys_filter.
Qed.

Lemma custom_usable (component : value) (data : option obj) (st : state) :
  usable_ids E st → usable_ids E (snd (custom E component data st)).
Proof.
  intros Hst. unfold custom, or_else.
  destruct (truthy _); simpl.
  - destruct (create _ _ _) as [id st'] eqn:Hc. simpl.
    change st' with (snd (id, st')). rewrite <- Hc. by apply create_usable.
  - destruct (create _ _ _) as [id st'] eqn:Hc. simpl.
    change st' with (snd (id, st')). rewrite <- Hc. by apply create_usable.
Qed.

Lemma run_op_usable (st : state) (o : op) :
  usable_ids E st → usable_ids E (run_op E st o).
Proof.
  intros Hst. destruct o as [data|id|w m data|c data|data|id|]; simpl.
  - by apply create_usable.
  - by apply dismiss_usable.
  - destruct w; by apply create_usable.
  - by apply custom_usable.
  - unfold usable_ids. by rewrite setHeight_toasts.
  - done.
  - constructor.
Qed.

Lemma run_usable (ops : list op) (st : state) :
  usable_ids E st → usable_ids E (run E ops st).
Proof.
  revert st. induction ops as [|o ops IH]; intros st Hst; [done|].
  simpl. apply IH. by apply run_op_usable.
Qed.

End UsableIds.

(** Dismissing with [NaN] changes nothing: no id is [===] to it. *)
Lemma dismiss_NaN (st : state) : dismiss VNaN st = (VNaN, st).
Proof.
  unfold dismiss. simpl. rewrite filter_key_absent; [by destruct st|].
  apply not_found_elem_of. by left.
Qed.

(** X4. After any calls of [create], [dismiss], the typed wrappers,
    [custom], [setHeight], [removeHeight] and [reset] on a freshly loaded
    store, the id of a notification that is in the registry is never
    [undefined], so that dismissing with it never clears the registry and
    returns that id.  When the id is not [NaN] the call takes exactly one
    record out, after which no record has that id; when it is [NaN] the
    call changes nothing. *)
Theorem dismiss_shown_removes_one (E : Env) (ops : list op) (toast : ToastT) :
  toast ∈ toasts (run E ops initial) →
  get toast "id" ≠ VUndef ∧
  fst (dismiss (get toast "id") (run E ops initial)) = get toast "id" ∧
  (get toast "id" ≠ VNaN →
   length (toasts (snd (dismiss (get toast "id") (run E ops initial)))) + 1
     = length (toasts (run E ops initial)) ∧
   get toast "id"
     ∉ ids (toasts (snd (dismiss (get toast "id") (run E ops initial))))) ∧
  (get toast "id" = VNaN →
   snd (dismiss (get toast "id") (run E ops initial)) = run E ops initial).
Proof.
  intros Hin. set (st := run E ops initial) in *.
  assert (one_record_per_id st) as [Honce _].
  { apply run_preserves. split; apply known_once_nil. }
  assert (usable_ids E st) as Husable.
  { apply run_usable. constructor. }
  assert (get toast "id" ∈ ids (toasts st)) as Hid.
  { unfold ids. rewrite map_is_fmap. apply list_elem_of_fmap. eauto. }
  assert (get toast "id" ≠ VUndef) as Hdef.
  { apply (usable_id_defined E). unfold usable_ids in Husable.
    rewrite Forall_forall in Husable. by apply Husable. }
  split; [done|]. split_and!.
  - unfold dismiss. apply strict_eq_undef_false in Hdef. by rewrite Hdef.
  - intros Hnan. unfold dismiss.
    apply strict_eq_undef_false in Hdef. rewrite Hdef. simpl. split.
    + apply filter_key_length; [done|]. by apply found_elem_of.
    + pose proof (filter_key_gone "id" (get toast "id") (toasts st)) as Hgone.
      apply not_found_elem_of in Hgone as [Hgone|Hgone]; done.
  - intros ->. by rewrite dismiss_NaN.
Qed.

(** The record "a" of the registry with ids 2, "a" and 0. *)
Lemma dismiss_shown_removes_one_witness :
  get second_toast "id" ≠ VUndef ∧
  fst (dismiss (get second_toast "id") (run sample_env three_ops initial))
    = get second_toast "id" ∧
  (get second_toast "id" ≠ VNaN →
   length (toasts (snd (dismiss (get second_toast "id")
                          (run sample_env three_ops initial)))) + 1
     = length (toasts (run sample_env three_ops initial)) ∧
   get second_toast "id"
     ∉ ids (toasts (snd (dismiss (get second_toast "id")
                           (run sample_env three_ops initial))))) ∧
  (get second_toast "id" = VNaN →
   snd (dismiss (get second_toast "id") (run sample_env three_ops initial))
     = run sample_env three_ops initial).
Proof.
  apply (dismiss_shown_removes_one sample_env three_ops second_toast).
  vm_compute. right. left.
Defined.

(** ** More on the height registry *)

Lemma set_heights_twice (hs hs' : list HeightT) (st : state) :
  set_heights hs (set_heights hs' st) = set_heights hs st.
Proof. done. Qed.

(** The first record with the toastId of [data] is [data] once the
    records with that toastId have been replaced. *)
Lemma find_after_replace (data : HeightT) (l : list HeightT) :
  found "toastId" (get data "toastId") l = true →
  find (λ el, strict_eq (get el "toastId") (get data "toastId"))
    (map (λ el, if strict_eq (get el "toastId") (get data "toastId")
                then data else el) l)
  = Some data.
Proof.
  intros Hfound.
  assert (strict_eq (get data "toastId") (get data "toastId") = true) as Hrefl.
  { apply strict_eq_refl. by apply found_elem_of in Hfound as [? _]. }
  revert Hfound. unfold found. induction l as [|a l IH]; simpl; [done|].
  destruct (strict_eq (get a "toastId") _) eqn:Ha; simpl.
  - by rewrite Hrefl.
  - rewrite Ha. apply IH.
Qed.

Lemma replace_twice (data : HeightT) (l : list HeightT) :
  map (λ el, if strict_eq (get el "toastId") (get data "toastId")
             then data else el)
    (map (λ el, if strict_eq (get el "toastId") (get data "toastId")
                then data else el) l)
  = map (λ el, if strict_eq (get el "toastId") (get data "toastId")
               then data else el) l.
Proof.
  rewrite map_map. apply map_ext. intros el.
  destruct (strict_eq (get el "toastId") _) eqn:Hel; [|by rewrite Hel].
  apply strict_eq_true in Hel as [Heq Hnan].
  rewrite strict_eq_refl; [done|congruence].
Qed.

Lemma replace_absent (data : HeightT) (l : list HeightT) :
  found "toastId" (get data "toastId") l = false →
  map (λ el, if strict_eq (get el "toastId") (get data "toastId")
             then data else el) l
  = l.
Proof.
  unfold found. induction l as [|a l IH]; [done|]. simpl. intros Hnot.
  apply orb_false_iff in Hnot as [-> Hnot]. by rewrite IH.
Qed.

(** X5. For a toastId other than [NaN]: after [setHeight(data)], looking
    a record up by the toastId of [data] finds [data], whether or not the
    toastId was known, and calling [setHeight(data)] once more changes
    nothing.  For the toastId [NaN] the lookup finds nothing and every
    call puts one more record in front. *)
Theorem setHeight_then_find (data : HeightT) (st : state) :
  (get data "toastId" ≠ VNaN →
   find (λ el, strict_eq (get el "toastId") (get data "toastId"))
     (heights (setHeight data st)) = Some data ∧
   setHeight data (setHeight data st) = setHeight data st) ∧
  (get data "toastId" = VNaN →
   find (λ el, strict_eq (get el "toastId") (get data "toastId"))
     (heights (setHeight data st)) = None ∧
   heights (setHeight data (setHeight data st)) = data :: data :: heights st).
Proof.
  split.
  - intros Hnan.
    pose proof (strict_eq_refl _ Hnan) as Hrefl.
    destruct (found "toastId" (get data "toastId") (heights st)) eqn:H.
    + assert (find (λ el, strict_eq (get el "toastId") (get data "toastId"))
                (heights (setHeight data st)) = Some data) as Hfind.
      { rewrite setHeight_known by done. by apply find_after_replace. }
      split; [done|]. unfold setHeight at 1. rewrite Hfind.
      rewrite setHeight_known by done. rewrite replace_twice.
      unfold setHeight. apply find_id_is_Some in H as [y ->].
      by rewrite set_heights_twice.
    + assert (find (λ el, strict_eq (get el "toastId") (get data "toastId"))
                (heights (setHeight data st)) = Some data) as Hfind.
      { rewrite setHeight_new by done. simpl. by rewrite Hrefl. }
      split; [done|]. unfold setHeight at 1. rewrite Hfind.
      rewrite setHeight_new by done. simpl. rewrite Hrefl.
      rewrite replace_absent by done.
      unfold setHeight. apply find_id_None in H. rewrite H.
      by rewrite set_heights_twice.
  - intros Hnan.
    assert (∀ l, found "toastId" (get data "toastId") l = false) as Hnever.
    { intros l. apply not_found_elem_of. by left. }
    split.
    + by apply find_id_None.
    + by rewrite !setHeight_new.
Qed.

(** A record for the toast 0 among two records, and a record whose toastId
    is [NaN]. *)
Lemma setHeight_then_find_witness :
  (find (λ el, strict_eq (get el "toastId") (get (height_of 0 99) "toastId"))
     (heights (setHeight (height_of 0 99) two_heights))
     = Some (height_of 0 99) ∧
   setHeight (height_of 0 99) (setHeight (height_of 0 99) two_heights)
     = setHeight (height_of 0 99) two_heights) ∧
  (find (λ el, strict_eq (get el "toastId") (get nan_height "toastId"))
     (heights (setHeight nan_height two_heights)) = None ∧
   heights (setHeight nan_height (setHeight nan_height two_heights))
     = nan_height :: nan_height :: heights two_heights).
Proof.
  split.
  - apply (proj1 (setHeight_then_find (height_of 0 99) two_heights)).
    vm_compute. discriminate.
  - apply (proj2 (setHeight_then_find nan_height two_heights)).
    vm_compute. reflexivity.
Defined.



(** With the toastId [NaN] the record that [setHeight] added stays. *)
Example removeHeight_NaN_removes_nothing :
  heights (removeHeight VNaN (setHeight nan_height two_heights))
    = nan_height :: heights two_heights.
Proof. vm_compute. reflexivity. Qed.

(** ** The typed wrappers and the facade *)

Lemma call_wrapper_is_create (E : Env) (w : wrapper) (m : value)
    (data : option obj) (st : state) :
  call_wrapper E w m data st
  = create E (<["message" := m]> (<["type" := VStr (wrapper_kind w)]> (spread data)))
      st.
Proof. by destruct w. Qed.

(** X7. Each typed wrapper leaves in the registry a record with the id it
    returns, the given message as title and the wrapper's own kind, also
    when [data] carries a [type] or a [message] of its own. *)
Theorem wrapper_fixes_kind_and_title (E : Env) (w : wrapper) (m : value)
    (data : option obj) (st : state) :
  ∃ toast,
    toast ∈ toasts (snd (call_wrapper E w m data st)) ∧
    get toast "id" = fst (call_wrapper E w m data st) ∧
    get toast "title" = m ∧
    get toast "type" = VStr (wrapper_kind w).
Proof.
  rewrite call_wrapper_is_create.
  destruct (create_writes_record E
              (<["message" := m]>
                 (<["type" := VStr (wrapper_kind w)]> (spread data))) st)
    as (toast & Hin & Hid & Htitle & Htype).
  exists toast. split_and!; [done|done| |].
  - rewrite Htitle. by get_insert.
  - rewrite Htype. unfold type_of. by get_insert.
Qed.

(** Two arguments of [create] that differ at most in the [type] property,
    and resolve to the same kind, have the same effect. *)
Lemma create_ext_type (E : Env) (d1 d2 : obj) (st : state) :
  (∀ k, k ≠ "type" → d1 !! k = d2 !! k) →
  type_of d1 = type_of d2 →
  create E d1 st = create E d2 st.
Proof.
  intros Hagree Htype.
  assert (∀ k, k ≠ "type" → get d1 k = get d2 k) as Hget.
  { intros k Hk. unfold get. by rewrite Hagree. }
  assert (assign_id E d1 st = assign_id E d2 st) as Hassign.
  { unfold assign_id, id_given. by rewrite (Hget "id"). }
  assert (dismissable_of d1 = dismissable_of d2) as Hdis.
  { unfold dismissable_of. by rewrite (Hget "dismissable"). }
  unfold create. rewrite Hassign, Hdis, Htype, (Hget "message") by done.
  destruct (assign_id E d2 st) as [id st1].
  assert (∀ toast,
            merge_toast d1 id (get d2 "message") (dismissable_of d2)
              (type_of d2) toast
            = merge_toast d2 id (get d2 "message") (dismissable_of d2)
                (type_of d2) toast) as Hmerge.
  { intros toast. unfold merge_toast. apply map_eq. intros k.
    destruct (decide (k = "type")) as [->|Hk].
    - rewrite (lookup_insert_ne _ "updated" "type") by done.
      rewrite !lookup_insert_eq.
      rewrite (lookup_insert_ne _ "updated" "type") by done.
      by rewrite lookup_insert_eq.
    - rewrite !lookup_insert. repeat case_decide; try done.
      by rewrite !lookup_union, Hagree. }
  assert (<["type" := type_of d2]>
            (<["dismissable" := dismissable_of d2]>
               (<["title" := get d2 "message"]>
                  (<["id" := id]> (delete "message" d1))))
          = <["type" := type_of d2]>
              (<["dismissable" := dismissable_of d2]>
                 (<["title" := get d2 "message"]>
                    (<["id" := id]> (delete "message" d2))))) as Hfresh.
  { apply map_eq. intros k. rewrite !lookup_insert.
    repeat case_decide; try done.
    rewrite !lookup_delete. case_decide; [done|]. by apply Hagree. }
  rewrite Hfresh. destruct (find _ _); [|done].
  f_equal. f_equal. apply map_ext. intros toast. by rewrite Hmerge.
Qed.

(** X8. The plain call [toast(message, data)] of the facade does what
    [toast.message(message, data)] does, as long as [data] has no [type]
    and no [message] property of its own. *)
Theorem toastFunction_is_message (E : Env) (m : value) (data : option obj)
    (st : state) :
  spread data !! "type" = None →
  spread data !! "message" = None →
  toastFunction E m data st = message E m data st.
Proof.
  intros Htype Hmessage. unfold toastFunction, message, create_typed.
  apply create_ext_type.
  - intros k Hk. rewrite lookup_union, !lookup_insert.
    repeat case_decide; simplify_eq.
    + by rewrite Hmessage.
    + rewrite lookup_empty. by destruct (spread data !! k).
  - unfold type_of, get.
    rewrite lookup_union, Htype. simpl.
    rewrite (lookup_insert_ne _ "message" "type") by done.
    rewrite (lookup_insert_ne _ "message" "type") by done.
    by rewrite lookup_empty, lookup_insert_eq.
Qed.

(** [toast('hi', { id: 0 })] on the registry with the record 0. *)
Lemma toastFunction_is_message_witness :
  toastFunction sample_env (VStr "hi") (Some only_id_data) one_toast
  = message sample_env (VStr "hi") (Some only_id_data) one_toast.
Proof.
  apply (toastFunction_is_message sample_env (VStr "hi") (Some only_id_data)
           one_toast).
  - vm_compute. reflexivity.
  - vm_compute. reflexivity.
Defined.

(** In [create({ message, ...data })] a [message] property of [data]
    wins over the first argument of the facade. *)
Example toastFunction_data_message_wins :
  summary (snd (toastFunction sample_env (VStr "hi")
                  (Some (<["message" := VStr "other"]> ∅)) initial))
    = [(VNum 0, VStr "default", VStr "other")] ∧
  summary (snd (message sample_env (VStr "hi")
                  (Some (<["message" := VStr "other"]> ∅)) initial))
    = [(VNum 0, VStr "default", VStr "hi")].
Proof. split; vm_compute; reflexivity. Qed.

(** ** The counter *)

Section Counter.
Context (E : Env).

Lemma create_counter (data : obj) (st : state) :
  toastsCounter (snd (create E data st))
  = toastsCounter (snd (assign_id E data st)).
Proof.
  destruct (found "id" (fst (assign_id E data st)) (toasts st)) eqn:H.
  - by rewrite create_existing.
  - by rewrite create_new.
Qed.

Lemma create_counter_le (data : obj) (st : state) :
  (toastsCounter st ≤ toastsCounter (snd (create E data st)))%Z.
Proof.
  rewrite create_counter. unfold assign_id.
  destruct (id_given E data); simpl; lia.
Qed.

Lemma custom_counter_le (component : value) (data : option obj) (st : state) :
  (toastsCounter st ≤ toastsCounter (snd (custom E component data st)))%Z.
Proof.
  unfold custom, or_else. destruct (truthy _); simpl.
  - destruct (create _ _ _) as [id st'] eqn:Hc. simpl.
    change st' with (snd (id, st')). rewrite <- Hc. apply create_counter_le.
  - destruct (create _ _ _) as [id st'] eqn:Hc. simpl.
    change st' with (snd (id, st')). rewrite <- Hc.
    etrans; [|apply create_counter_le]. simpl. lia.
Qed.

Lemma run_op_counter_le (st : state) (o : op) :
  (toastsCounter st ≤ toastsCounter (run_op E st o))%Z.
Proof.
  destruct o as [data|id|w m data|c data|data|id|]; simpl.
  - apply create_counter_le.
  - unfold dismiss. by destruct (strict_eq id VUndef).
  - destruct w; apply create_counter_le.
  - apply custom_counter_le.
  - unfold setHeight. by destruct (find _ _).
  - done.
  - done.
Qed.

Lemma run_counter_le (ops : list op) (st : state) :
  (toastsCounter st ≤ toastsCounter (run E ops st))%Z.
Proof.
  revert st. induction ops as [|o ops IH]; intros st; [done|].
  simpl. etrans; [apply run_op_counter_le|apply IH].
Qed.

End Counter.

(** X9. Two [create] calls that leave the id to the store get different
    ids, the later one the larger number, whatever calls are made between
    them; [reset] and [dismiss()] do not start the numbers again. *)
Theorem counter_ids_never_repeat (E : Env) (d1 d2 : obj) (ops : list op)
    (st : state) :
  id_given E d1 = false →
  id_given E d2 = false →
  ∃ n1 n2,
    fst (create E d1 st) = VNum n1 ∧
    fst (create E d2 (run E ops (snd (create E d1 st)))) = VNum n2 ∧
    (n1 < n2)%Z.
Proof.
  intros H1 H2.
  exists (toastsCounter st),
         (toastsCounter (run E ops (snd (create E d1 st)))).
  rewrite !create_returns_assigned. unfold assign_id at 1 2.
  rewrite H1, H2. simpl. split_and!; [done|done|].
  pose proof (run_counter_le E ops (snd (create E d1 st))) as Hle.
  rewrite create_counter in Hle at 1. unfold assign_id in Hle at 1.
  rewrite H1 in Hle. simpl in Hle. lia.
Qed.

(** [create({ message: 'hi' })], then [reset()], then
    [create({ message: 'hi' })] again. *)
Lemma counter_ids_never_repeat_witness :
  ∃ n1 n2,
    fst (create sample_env hi_data initial) = VNum n1 ∧
    fst (create sample_env hi_data
           (run sample_env [OpReset] (snd (create sample_env hi_data initial))))
      = VNum n2 ∧
    (n1 < n2)%Z.
Proof.
  apply (counter_ids_never_repeat sample_env hi_data hi_data [OpReset] initial).
  - vm_compute. reflexivity.
  - vm_compute. reflexivity.
Defined.

(** ** More on [promise] *)

Section PromiseMore.
Context (E : Env).
Implicit Types (data : obj) (st : state) (c : closure) (s : settlement).

(** [promise] in terms of its first step. *)
Lemma promise_spec (p : value) data st :
  promise E p (Some data) st
  = match (if instanceof_Promise E p
           then (Ret p, snd (loading_step E p data st))
           else call_value E p VUndef (snd (loading_step E p data st))) with
    | (Throw e, st') => (Throw e, st')
    | (Ret v, st') =>
        if instanceof_Promise E v || thenable E v
        then (Ret (fst (loading_step E p data st),
                   Some (mkClosure data (fst (loading_step E p data st))
                           (negb (strict_eq (fst (loading_step E p data st))
                                    VUndef)))),
              st')
        else (Throw VTypeError, st')
    end.
Proof.
  unfold promise, loading_step. fold (loading_call p data).
  destruct (negb _); simpl.
  - destruct (create E (loading_call p data) st) as [id0 st0]. simpl.
    destruct (instanceof_Promise E p); simpl; [done|].
    by destruct (call_value E p VUndef st0) as [[v|e] st'].
  - destruct (instanceof_Promise E p); simpl; [done|].
    by destruct (call_value E p VUndef st) as [[v|e] st'].
Qed.

Lemma call_value_toasts (f arg : value) st :
  toasts (snd (call_value E f arg st)) = toasts st.
Proof. unfold call_value. by destruct f. Qed.

Lemma call_value_heights (f arg : value) st :
  heights (snd (call_value E f arg st)) = heights st.
Proof. unfold call_value. by destruct f. Qed.

Lemma loading_step_heights (p : value) data st :
  heights (snd (loading_step E p data st)) = heights st.
Proof.
  unfold loading_step. destruct (negb _); [|done]. apply create_heights.
Qed.



(** The registry after a [promise] call with [data]: that of the [create]
    call for the loading notification, or the old one. *)
Lemma promise_toasts (p : value) data st :
  toasts (snd (promise E p (Some data) st))
  = if strict_eq (get data "loading") VUndef then toasts st
    else toasts (snd (create E (loading_call p data) st)).
Proof.
  rewrite promise_spec.
  assert (toasts (snd (loading_step E p data st))
          = if strict_eq (get data "loading") VUndef then toasts st
            else toasts (snd (create E (loading_call p data) st))) as <-.
  { unfold loading_step. by destruct (strict_eq _ _). }
  destruct (instanceof_Promise E p) eqn:Hp.
  - by rewrite Hp.
  - pose proof (call_value_toasts p VUndef (snd (loading_step E p data st)))
      as Ht.
    destruct (call_value E p VUndef _) as [[v|e] st']; [|done].
    by destruct (_ || _).
Qed.

Lemma promise_heights (p : value) (data : option obj) st :
  heights (snd (promise E p data st)) = heights st.
Proof.
  destruct data as [data|]; [|done].
  rewrite promise_spec, <- (loading_step_heights p data st).
  destruct (instanceof_Promise E p) eqn:Hp.
  - by rewrite Hp.
  - pose proof (call_value_heights p VUndef (snd (loading_step E p data st)))
      as Ht.
    destruct (call_value E p VUndef _) as [[v|e] st']; [|done].
    by destruct (_ || _).
Qed.


(** A transition for an id of the registry keeps the length of the
    registry and the order of its ids. *)
Lemma transition_present (id : value) (kind : string) (m : value) st :
  found "id" id (toasts st) = true →
  usable_id E id = true →
  ids (toasts (transition E id kind m st)) = ids (toasts st).
Proof.
  intros Hin Hus. unfold transition.
  set (d := <["message" := m]> (<["type" := VStr kind]> (<["id" := id]> ∅))).
  assert (assign_id E d st = (id, st)) as Hassign.
  { assert (get d "id" = id) as Hid by (unfold d; by get_insert).
    rewrite assign_id_of_usable; by rewrite Hid. }
  rewrite create_existing; rewrite Hassign; [|done]. simpl.
  apply update_keeps_ids.
Qed.



End PromiseMore.






(** [promise(p, { id: NaN, loading: 'L' })] with [p] rejecting: the loading
    notification stays. *)
Example promise_NaN_loading_stays :
  (λ '(id, r, st), (id, r, summary st))
    <$> promise_settled sample_env (VObj 0)
          (Some (<["id" := VNaN]> loading_data)) (Rejected (VStr "boom"))
          initial
    = Some (VNaN, Ret (), [(VNaN, VStr "loading", VStr "L")]).
Proof. vm_compute. reflexivity. Qed.



Example promise_throwing_success_stuck :
  (λ '(id, r, st), (id, r, summary st))
    <$> promise_settled sample_env (VObj 0) (Some loading_throwing_success_data)
          (Fulfilled (VObj 2)) initial
    = Some (VNum 0, Ret (), [(VNum 0, VStr "loading", VStr "L")]).
Proof. vm_compute. reflexivity. Qed.

(** ** The invariant across [promise] *)

Section PromiseInvariant.
Context (E : Env).
Implicit Types (data : obj) (st : state) (c : closure) (s : settlement).

(** The invariant looks at the two registries only. *)
Lemma one_record_same st st' :
  toasts st' = toasts st → heights st' = heights st →
  one_record_per_id st → one_record_per_id st'.
Proof. unfold one_record_per_id. by intros -> ->. Qed.

Lemma handler_message_preserves (h arg : value) st :
  one_record_per_id st → one_record_per_id (snd (handler_message E h arg st)).
Proof. unfold handler_message, call_value. by destruct h. Qed.

Lemma transition_preserves (id : value) (kind : string) (m : value) st :
  one_record_per_id st → one_record_per_id (transition E id kind m st).
Proof. apply create_preserves. Qed.

Lemma on_fulfilled_preserves c (response : value) st :
  one_record_per_id st → one_record_per_id (snd (on_fulfilled E c response st)).
Proof.
  intros Hst. unfold on_fulfilled.
  destruct (failed_response _ _); [|destruct (negb _)]; try done.
  all: match goal with
       | Hs : one_record_per_id ?s0 |- context [handler_message E ?h ?a ?s0] =>
           pose proof (handler_message_preserves h a s0 Hs) as Hh;
           destruct (handler_message E h a s0) as [[m|e] st']
       end; simpl in *; try done; by apply transition_preserves.
Qed.

Lemma on_rejected_preserves c (error : value) st :
  one_record_per_id st → one_record_per_id (snd (on_rejected E c error st)).
Proof.
  intros Hst. unfold on_rejected. destruct (negb _); try done.
  match goal with
  | |- context [handler_message E ?h ?a st] =>
      pose proof (handler_message_preserves h a st Hst) as Hh;
      destruct (handler_message E h a st) as [[m|e] st']
  end; simpl in *; try done; by apply transition_preserves.
Qed.

Lemma call_finally_preserves c st :
  one_record_per_id st → one_record_per_id (snd (call_finally E c st)).
Proof.
  unfold call_finally, call_value.
  destruct (get (c_data c) "finally"); simpl; try done.
  by destruct (call E f VUndef).
Qed.

Lemma on_finally_preserves c st :
  one_record_per_id st → one_record_per_id (snd (on_finally E c st)).
Proof.
  intros Hst. unfold on_finally. destruct (c_shouldDismiss c).
  - pose proof (call_finally_preserves
                  (mkClosure (c_data c) VUndef true)
                  (snd (dismiss (c_id c) st))
                  (dismiss_preserves _ _ Hst)) as Hf.
    by destruct (call_finally _ _ _).
  - pose proof (call_finally_preserves c st Hst) as Hf.
    by destruct (call_finally _ _ _).
Qed.

Lemma settle_preserves c s st :
  one_record_per_id st → one_record_per_id (snd (settle E c s st)).
Proof.
  intros Hst. unfold settle, then_catch, then_step, catch_step, finally_step.
  assert (∀ r c1 st1, one_record_per_id st1 →
            one_record_per_id (snd (match on_finally E c1 st1 with
                             | (Ret _, c2, st2) => (r, c2, st2)
                             | (Throw e, c2, st2) => (Throw e, c2, st2)
                             end : result unit * closure * state)))
    as Hfinally.
  { intros r c1 st1 H1. pose proof (on_finally_preserves c1 st1 H1) as Hf.
    by destruct (on_finally E c1 st1) as [[[[]|e] c2] st2]. }
  destruct s as [response|error].
  - pose proof (on_fulfilled_preserves c response st Hst) as H1.
    destruct (on_fulfilled E c response st) as [[[[]|e] c1] st1]; simpl in *.
    + by apply Hfinally.
    + pose proof (on_rejected_preserves c1 e st1 H1) as H2.
      destruct (on_rejected E c1 e st1) as [[r c2] st2]. by apply Hfinally.
  - pose proof (on_rejected_preserves c error st Hst) as H2.
    destruct (on_rejected E c error st) as [[r c2] st2]. by apply Hfinally.
Qed.

Lemma promise_preserves (p : value) (data : option obj) st :
  one_record_per_id st → one_record_per_id (snd (promise E p data st)).
Proof.
  intros Hst. destruct data as [data|]; [|done].
  apply (one_record_same
           (if strict_eq (get data "loading") VUndef then st
            else snd (create E (loading_call p data) st))).
  - rewrite promise_toasts. by destruct (strict_eq _ _).
  - rewrite promise_heights. destruct (strict_eq _ _); [done|].
    by rewrite create_heights.
  - destruct (strict_eq _ _); [done|]. by apply create_preserves.
Qed.

End PromiseInvariant.

(** X13. [promise] calls and the callbacks of a settling promise keep what
    the store keeps: from a store with at most one record per id and per
    toastId other than [NaN] they leave such a store, whenever the promise
    settles and whatever the handlers return or throw. *)
Theorem promise_keeps_unique_ids (E : Env) (p : value) (data : option obj)
    (c : closure) (s : settlement) (st : state) :
  one_record_per_id st →
  one_record_per_id (snd (promise E p data st)) ∧
  one_record_per_id (snd (settle E c s st)).
Proof.
  intros Hst. split; [by apply promise_preserves|by apply settle_preserves].
Qed.

Lemma promise_keeps_unique_ids_witness :
  one_record_per_id (snd (promise sample_env (VObj 0) (Some loading_error_data)
                     three_toasts)) ∧
  one_record_per_id (snd (settle sample_env (mkClosure loading_error_data (VNum 3) true)
                     (Rejected (VStr "boom")) three_toasts)).
Proof.
  apply (promise_keeps_unique_ids sample_env (VObj 0) (Some loading_error_data)
           (mkClosure loading_error_data (VNum 3) true)
           (Rejected (VStr "boom")) three_toasts).
  apply (run_preserves sample_env three_ops initial).
  split; apply known_once_nil.
Defined.



Lemma loading_step_calls (E : Env) (p : value) (data : obj) (st : state) :
  calls (snd (loading_step E p data st)) = calls st.
Proof.
  unfold loading_step. destruct (negb _); [|done]. apply create_calls.
Qed.

(** X15. A promise-producing function is called once, without arguments,
    after the loading notification was created; a promise object is never
    called.  When the function throws, [promise] throws the same value,
    and when it returns what is no promise, [promise] throws a
    [TypeError]; no callback is registered then, and a loading
    notification that was created stays in the registry. *)
Theorem promise_calls_function_once (E : Env) (p : value) (f : nat)
    (data : obj) (st : state) :
  (instanceof_Promise E p = true →
   calls (snd (promise E p (Some data) st)) = calls st) ∧
  (instanceof_Promise E (VFun f) = false →
   calls (snd (promise E (VFun f) (Some data) st)) = (f, VUndef) :: calls st ∧
   (∀ e, call E f VUndef = Throw e →
      fst (promise E (VFun f) (Some data) st) = Throw e ∧
      (get data "loading" ≠ VUndef →
       ∃ toast, toast ∈ toasts (snd (promise E (VFun f) (Some data) st)) ∧
                get toast "type" = VStr "loading" ∧
                get toast "title" = get data "loading")) ∧
   (∀ v, call E f VUndef = Ret v →
      instanceof_Promise E v || thenable E v = false →
      fst (promise E (VFun f) (Some data) st) = Throw VTypeError)).
Proof.
  split.
  - intros Hp. rewrite promise_spec, Hp. simpl. rewrite Hp. simpl.
    apply loading_step_calls.
  - intros Hp. rewrite promise_spec, Hp. unfold call_value. split_and!.
    + destruct (call E f VUndef) as [v|e]; [destruct (_ || _)|]; simpl;
        by rewrite loading_step_calls.
    + intros e He. rewrite He. split; [done|].
      intros Hloading. simpl. unfold loading_step.
      apply strict_eq_undef_false in Hloading. rewrite Hloading. simpl.
      destruct (create_writes_record E (loading_call (VFun f) data) st)
        as (toast & Hin & _ & Htitle & Htype).
      exists toast. split_and!; [done| |].
      * rewrite Htype. unfold type_of, loading_call. by get_insert.
      * rewrite Htitle. unfold loading_call. by get_insert.
    + intros v Hv Hno. by rewrite Hv, Hno.
Qed.

(** [promise(f1, { loading: 'L' })], where [f1] throws; and
    [promise(p, { loading: 'L' })] for the promise object [p]. *)
Lemma promise_calls_function_once_witness :
  calls (snd (promise sample_env (VObj 0) (Some loading_data) initial))
    = calls initial ∧
  calls (snd after_throwing_thunk) = (1%nat, VUndef) :: calls initial ∧
  fst after_throwing_thunk = Throw VUndef ∧
  ∃ toast, toast ∈ toasts (snd after_throwing_thunk) ∧
           get toast "type" = VStr "loading" ∧
           get toast "title" = get loading_data "loading".
Proof.
  destruct (promise_calls_function_once sample_env (VObj 0) 1 loading_data
              initial) as [Hobj Hfun].
  specialize (Hobj eq_refl). destruct (Hfun eq_refl) as (Hcalls & Hthrow & _).
  destruct (Hthrow VUndef eq_refl) as [Hres Htoast].
  split_and!; [exact Hobj|exact Hcalls|exact Hres|].
  apply Htoast. vm_compute. discriminate.
Defined.

(** ** Round trips and edge cases of the registry *)

(** X16. [dismiss(id)] for an id that no record has changes nothing and
    still returns the id; and dismissing the same id twice leaves what
    dismissing it once leaves. *)
Theorem dismiss_absent_or_twice (id : value) (st : state) :
  (id ≠ VUndef → id ∉ ids (toasts st) → dismiss id st = (id, st)) ∧
  snd (dismiss id (snd (dismiss id st))) = snd (dismiss id st).
Proof.
  split.
  - intros Hdef Hnotin. unfold dismiss.
    apply strict_eq_undef_false in Hdef. rewrite Hdef.
    rewrite filter_key_absent; [by destruct st|].
    apply not_found_elem_of. by right.
  - unfold dismiss. destruct (strict_eq id VUndef); simpl; [done|].
    rewrite filter_key_absent; [done|]. apply filter_key_gone.
Qed.

Lemma dismiss_absent_or_twice_witness :
  dismiss (VNum 7) three_toasts = (VNum 7, three_toasts).
Proof.
  apply (proj1 (dismiss_absent_or_twice (VNum 7) three_toasts)).
  - discriminate.
  - vm_compute. intros H.
    repeat (inversion H as [|? ? ? H']; clear H; rename H' into H).
Defined.

(** X17. Dismissing the id that a [create] call returned for a new
    notification gives back the registry as it was before the call, when
    that id is not [NaN]; for the id [NaN] the new record stays. *)
Theorem create_then_dismiss (E : Env) (data : obj) (st : state) :
  found "id" (fst (assign_id E data st)) (toasts st) = false →
  (fst (assign_id E data st) ≠ VNaN →
   toasts (snd (dismiss (fst (create E data st)) (snd (create E data st))))
   = toasts st) ∧
  (fst (assign_id E data st) = VNaN →
   toasts (snd (dismiss (fst (create E data st)) (snd (create E data st))))
   = fresh_toast data VNaN :: toasts st).
Proof.
  intros Hnew. pose proof (assign_id_defined E data st) as Hdef.
  rewrite create_new by done. simpl. split.
  - intros Hnan. unfold dismiss.
    apply strict_eq_undef_false in Hdef. rewrite Hdef. simpl.
    rewrite assign_id_toasts. rewrite filter_cons_False.
    + by apply filter_key_absent.
    + rewrite stays_iff, fresh_toast_id, strict_eq_refl by done. done.
  - intros Hnan. rewrite Hnan, dismiss_NaN. simpl.
    by rewrite assign_id_toasts.
Qed.

Lemma create_then_dismiss_witness :
  toasts (snd (dismiss (fst (create sample_env second_data one_toast))
                 (snd (create sample_env second_data one_toast))))
    = toasts one_toast ∧
  toasts (snd (dismiss (fst (create sample_env nan_data one_toast))
                 (snd (create sample_env nan_data one_toast))))
    = fresh_toast nan_data VNaN :: toasts one_toast.
Proof.
  split.
  - refine (proj1 (create_then_dismiss sample_env second_data one_toast _) _).
    + vm_compute. reflexivity.
    + vm_compute. discriminate.
  - refine (proj2 (create_then_dismiss sample_env nan_data one_toast _) _).
    + vm_compute. reflexivity.
    + vm_compute. reflexivity.
Defined.

(** X18. [addToast] does not look at the registry: given a record whose
    id a record of the registry has, it leaves two records with that id,
    where [create] would have updated the one there is. *)
Theorem addToast_duplicates (data : ToastT) (st : state) :
  get data "id" ∈ ids (toasts st) →
  toasts (addToast data st) = data :: toasts st ∧
  ¬ NoDup (ids (toasts (addToast data st))).
Proof.
  intros Hin. split; [done|]. simpl. rewrite NoDup_cons. tauto.
Qed.

Lemma addToast_duplicates_witness :
  toasts (addToast only_id_data one_toast) = only_id_data :: toasts one_toast ∧
  ¬ NoDup (ids (toasts (addToast only_id_data one_toast))).
Proof.
  apply (addToast_duplicates only_id_data one_toast).
  vm_compute. left.
Defined.

(** ** More on [custom] *)

(** A property of the call that [create] does not compute itself is a
    property of the record with the returned id. *)
Lemma create_writes_property (E : Env) (data : obj) (st : state)
    (k : string) (v : value) :
  data !! k = Some v → k ∉ fresh_fields → k ≠ "updated" →
  ∃ toast,
    toast ∈ toasts (snd (create E data st)) ∧
    get toast "id" = fst (create E data st) ∧
    toast !! k = Some v.
Proof.
  intros Hv Hk Hup. rewrite create_returns_assigned.
  assert (k ∉ computed_fields) as Hk'.
  { unfold computed_fields, fresh_fields in *. intros Hin. apply Hk.
    repeat (apply elem_of_cons in Hin as [->|Hin];
            [by repeat constructor|]).
    by apply elem_of_nil in Hin. }
  destruct (found "id" (fst (assign_id E data st)) (toasts st)) eqn:H.
  - rewrite create_existing by done. simpl.
    apply found_member in H as (toast & Hin & Hid).
    exists (merged data (fst (assign_id E data st)) toast). split_and!.
    + rewrite map_is_fmap. apply list_elem_of_fmap. exists toast.
      split; [|done]. by rewrite Hid.
    + apply merged_id.
    + rewrite merged_lookup by done. by apply lookup_union_Some_l.
  - rewrite create_new by done. simpl.
    exists (fresh_toast data (fst (assign_id E data st))). split_and!.
    + by left.
    + apply fresh_toast_id.
    + unfold fresh_toast, fresh_fields in *.
      rewrite !lookup_insert_ne, lookup_delete_ne; [done|..];
        intros <-; apply Hk; set_solver.
Qed.

(** X19. [custom(component, data)] with an id that is truthy and passes
    the id test of [create] (a number other than 0, a string that is not
    empty) returns that id, leaves the counter alone and leaves a record
    with that id that carries the component.  Without an [id] property it
    returns the counter, which goes up by one, and the record that carries
    the component has that number as its id. *)
Theorem custom_good_paths (E : Env) (component : value) (data : obj)
    (st : state) :
  data !! "component" = None →
  (truthy (get data "id") = true → usable_id E (get data "id") = true →
   fst (custom E component (Some data) st) = get data "id" ∧
   toastsCounter (snd (custom E component (Some data) st)) = toastsCounter st ∧
   ∃ toast, toast ∈ toasts (snd (custom E component (Some data) st)) ∧
            get toast "id" = get data "id" ∧
            get toast "component" = component) ∧
  (data !! "id" = None →
   fst (custom E component (Some data) st) = VNum (toastsCounter st) ∧
   toastsCounter (snd (custom E component (Some data) st))
     = (toastsCounter st + 1)%Z ∧
   ∃ toast, toast ∈ toasts (snd (custom E component (Some data) st)) ∧
            get toast "id" = VNum (toastsCounter st) ∧
            get toast "component" = component).
Proof.
  intros Hcomp. split.
  - intros Htruthy Husable. rewrite custom_truthy_id by done. simpl.
    set (d := data ∪ <["component" := component]> ∅).
    assert (get d "id" = get data "id") as Hid.
    { unfold d, get. rewrite lookup_union.
      rewrite (lookup_insert_ne _ "component" "id") by done.
      rewrite lookup_empty. by destruct (data !! "id"). }
    assert (assign_id E d st = (get data "id", st)) as Hassign.
    { rewrite assign_id_of_usable; by rewrite Hid. }
    split_and!; [done|by rewrite create_counter, Hassign|].
    destruct (create_writes_property E d st "component" component)
      as (toast & Hin & Htid & Hc).
    + unfold d. rewrite lookup_union_r by done. apply lookup_insert_eq.
    + unfold fresh_fields. intros Hin.
      repeat (apply elem_of_cons in Hin as [Heq|Hin]; [discriminate|]).
      by apply elem_of_nil in Hin.
    + done.
    + exists toast. split_and!; [done| |].
      * by rewrite Htid, create_returns_assigned, Hassign.
      * unfold get. by rewrite Hc.
  - intros Hnone.
    destruct (custom_without_id E data component st Hnone)
      as (Hret & Hcounter & Hcreate).
    split_and!; [done|done|].
    unfold custom, or_else in *. simpl in *.
    rewrite (get_absent _ _ Hnone) in *. simpl in *.
    set (d := data ∪ <["id" := VNum (toastsCounter st)]>
                       (<["component" := component]> ∅)) in *.
    destruct (create_writes_property E d (snd (next_counter st))
                "component" component) as (toast & Hin & Htid & Hc).
    + unfold d. rewrite lookup_union_r by done.
      rewrite lookup_insert_ne by done. apply lookup_insert_eq.
    + unfold fresh_fields. intros Hin.
      repeat (apply elem_of_cons in Hin as [Heq|Hin]; [discriminate|]).
      by apply elem_of_nil in Hin.
    + done.
    + exists toast. simpl in *.
      destruct (create E d _) as [id0 st0]. simpl in *.
      split_and!; [done|congruence|]. unfold get. by rewrite Hc.
Qed.

(** [custom(C, { id: 'c1', description: 'd' })] and
    [custom(C, { description: 'd' })] after one [create]. *)
Lemma custom_good_paths_witness :
  (fst (custom sample_env (VObj 3) (Some custom_data) one_toast)
     = get custom_data "id" ∧
   toastsCounter (snd (custom sample_env (VObj 3) (Some custom_data) one_toast))
     = toastsCounter one_toast ∧
   ∃ toast,
     toast ∈ toasts (snd (custom sample_env (VObj 3) (Some custom_data)
                            one_toast)) ∧
     get toast "id" = get custom_data "id" ∧
     get toast "component" = VObj 3) ∧
  (fst (custom sample_env (VObj 3) (Some (delete "id" custom_data)) one_toast)
     = VNum (toastsCounter one_toast) ∧
   toastsCounter (snd (custom sample_env (VObj 3)
                         (Some (delete "id" custom_data)) one_toast))
     = (toastsCounter one_toast + 1)%Z ∧
   ∃ toast,
     toast ∈ toasts (snd (custom sample_env (VObj 3)
                            (Some (delete "id" custom_data)) one_toast)) ∧
     get toast "id" = VNum (toastsCounter one_toast) ∧
     get toast "component" = VObj 3).
Proof.
  split.
  - refine (proj1 (custom_good_paths sample_env (VObj 3) custom_data one_toast
                     _) _ _).
    + vm_compute. reflexivity.
    + vm_compute. reflexivity.
    + vm_compute. reflexivity.
  - refine (proj2 (custom_good_paths sample_env (VObj 3)
                     (delete "id" custom_data) one_toast _) _).
    + vm_compute. reflexivity.
    + vm_compute. reflexivity.
Defined.

(** ** Failed responses *)




Example promise_failed_response_text :
  (λ '(id, r, st), (id, summary st, calls st))
    <$> promise_settled sample_env (VObj 0) (Some loading_error_function_data)
          (Fulfilled (VObj 1)) initial
    = Some (VNum 0, [(VNum 0, VStr "error", VStr "done")],
            [(0%nat, VStr "HTTP error! status: 500")]).
Proof. vm_compute. reflexivity. Qed.

(** ** The flag of [promise] *)

Section Flag.
Context (E : Env).
Implicit Types (data : obj) (st : state) (c : closure) (s : settlement).





End Flag.




(** With nothing but [loading] and [finally], the loading notification is
    dismissed when the promise settles, and [finally] is called, whether
    the promise resolves or rejects. *)
Example promise_loading_only_settled :
  (λ '(id, r, st), (id, r, summary st, calls st))
    <$> promise_settled sample_env (VObj 0) (Some loading_finally_data)
          (Fulfilled (VObj 2)) initial
    = Some (VNum 0, Ret (), [], [(0%nat, VUndef)]) ∧
  (λ '(id, r, st), (id, r, summary st, calls st))
    <$> promise_settled sample_env (VObj 0) (Some loading_finally_data)
          (Rejected (VStr "boom")) initial
    = Some (VNum 0, Ret (), [], [(0%nat, VUndef)]).
Proof. split; vm_compute; reflexivity. Qed.

(** With a success handler the flag is cleared and the success
    notification stays after the [finally] callback. *)
Example promise_success_not_dismissed :
  (λ '(r, c, st), (r, c_shouldDismiss c, summary st))
    (settle sample_env (mkClosure loading_success_data (VNum 0) true)
       (Fulfilled (VObj 2)) (after_promise loading_success_data))
    = (Ret (), false, [(VNum 0, VStr "success", VStr "S")]).
Proof. vm_compute. reflexivity. Qed.
